(** * preprocess_excel_to_md: a shallow embedding of [tools/preprocess_excel_to_md.py]

    The script turns every sheet of an Excel workbook into a Markdown
    document with a YAML front matter, cuts large documents into chunks and
    writes one file per chunk.  This development embeds the functions of the
    script as Rocq functions and proves (or refutes) the properties that the
    design document states about them.

    Conventions.
    - A Python [str] is a list of Unicode code points ([pystr]); [len] is the
      number of code points.  Python [int]s are [Z].
    - The builtins the script relies on ([str.splitlines], [str.strip],
      [str.startswith], [in], [Path.stem], [hashlib.md5], UTF-8 encoding,
      format specifier [02d]) are modelled after their documented behaviour.
    - The two renderers the script treats as black boxes ([yaml.safe_dump],
      [DataFrame.to_markdown]), [str.lower] (Unicode case tables) and the clock
      are parameters of the definitions that use them. *)

From Stdlib Require Import ZArith List Bool Lia String Ascii.
From Stdlib Require Import DecimalString DecimalN.
Import ListNotations.

Local Open Scope Z_scope.

(* ================================================================= *)
(** ** Python strings *)

Module PyStr.

(** A code point. *)
Definition char := Z.

(** A Python [str]. *)
Definition pystr := list char.

(** [len(s)]. *)
Definition len (s : pystr) : Z := Z.of_nat (List.length s).

(** An ASCII literal of the script as a [pystr]. *)
Definition py (s : string) : pystr :=
  List.map (fun a => Z.of_N (N_of_ascii a)) (list_ascii_of_string s).

Definition LF : char := 10.
Definition CR : char := 13.

(** [sep.join(parts)] with the empty separator. *)
Definition join (parts : list pystr) : pystr := List.concat parts.

Fixpoint str_eqb (s t : pystr) : bool :=
  match s, t with
  | [], [] => true
  | a :: s', b :: t' => (a =? b) && str_eqb s' t'
  | _, _ => false
  end.

(** [s.startswith(prefix)]. *)
Fixpoint startswith (s prefix : pystr) : bool :=
  match prefix, s with
  | [], _ => true
  | p :: prefix', c :: s' => (p =? c) && startswith s' prefix'
  | _ :: _, [] => false
  end.

(** [s.startswith((p1, ..., pn))]: true when one of the prefixes matches. *)
Definition startswith_any (s : pystr) (prefixes : list pystr) : bool :=
  existsb (startswith s) prefixes.

(** [sub in s]: substring test. *)
Fixpoint contains (sub s : pystr) : bool :=
  startswith s sub ||
  match s with
  | [] => false
  | _ :: s' => contains sub s'
  end.

(** [c.isspace()]: the code points [str.strip()] removes. *)
Definition isspace (c : char) : bool :=
  ((9 <=? c) && (c <=? 13)) || ((28 <=? c) && (c <=? 32)) ||
  (c =? 133) || (c =? 160) || (c =? 5760) ||
  ((8192 <=? c) && (c <=? 8202)) ||
  (c =? 8232) || (c =? 8233) || (c =? 8239) || (c =? 8287) || (c =? 12288).

(** [s.lstrip()]. *)
Fixpoint lstrip (s : pystr) : pystr :=
  match s with
  | [] => []
  | c :: s' => if isspace c then lstrip s' else s
  end.

(** [s.rstrip()]. *)
Definition rstrip (s : pystr) : pystr := List.rev (lstrip (List.rev s)).

(** [s.strip()]. *)
Definition strip (s : pystr) : pystr := rstrip (lstrip s).

(** The line boundaries of [str.splitlines]: LF, VT, FF, CR, FS, GS, RS, NEL,
    LINE SEPARATOR and PARAGRAPH SEPARATOR (CR LF counts as one boundary). *)
Definition is_linebreak (c : char) : bool :=
  ((10 <=? c) && (c <=? 13)) || ((28 <=? c) && (c <=? 30)) ||
  (c =? 133) || (c =? 8232) || (c =? 8233).

(** [splitlines_from cur s]: the lines of [cur + s] where [cur] is the part
    of the current line already scanned; line ends are kept. *)
Fixpoint splitlines_from (cur s : pystr) : list pystr :=
  match s with
  | [] => match cur with [] => [] | _ :: _ => [cur] end
  | c :: rest =>
      if is_linebreak c then
        match rest with
        | d :: rest' =>
            if (c =? CR) && (d =? LF)
            then (cur ++ [c; d]) :: splitlines_from [] rest'
            else (cur ++ [c]) :: splitlines_from [] rest
        | [] => (cur ++ [c]) :: splitlines_from [] rest
        end
      else splitlines_from (cur ++ [c]) rest
  end.

(** [s.splitlines(keepends=True)]. *)
Definition splitlines (s : pystr) : list pystr := splitlines_from [] s.

End PyStr.

Import PyStr.

(* ================================================================= *)
(** ** The chunker: [chunk_text] *)

Module Chunker.

(** [line.strip().startswith(("## ", "### ", "|"))]. *)
Definition hard_boundary (line : pystr) : bool :=
  startswith_any (strip line) [py "## "; py "### "; py "|"].

(** The loop variables [chunks, buf, size]. *)
Record state := mkState {
  chunks : list pystr;
  buf : list pystr;
  size : Z
}.

Definition init : state := mkState [] [] 0.

(** [chunks.append("".join(buf)); buf, size = [], 0]. *)
Definition flush (st : state) : state :=
  mkState (chunks st ++ [join (buf st)]) [] 0.

(** [buf.append(line); size += len(line)]. *)
Definition push (line : pystr) (st : state) : state :=
  mkState (chunks st) (buf st ++ [line]) (size st + len line).

(** The guard of the first [if] of the loop body. *)
Definition flush_before (max_chars : Z) (st : state) (line : pystr) : bool :=
  (0 <? size st) && (max_chars <? size st + len line) && hard_boundary line.

(** The second [if] of the loop body: [if size >= max_chars: flush]. *)
Definition flush_after (max_chars : Z) (st : state) : state :=
  if max_chars <=? size st then flush st else st.

(** One iteration of [for line in lines]. *)
Definition step (max_chars : Z) (st : state) (line : pystr) : state :=
  let st1 := if flush_before max_chars st line then flush st else st in
  flush_after max_chars (push line st1).

(** The whole [for] loop. *)
Definition scan (max_chars : Z) (lines : list pystr) (st : state) : state :=
  fold_left (step max_chars) lines st.

(** [if buf: chunks.append("".join(buf))]; [return chunks]. *)
Definition finish (st : state) : list pystr :=
  match buf st with
  | [] => chunks st
  | _ :: _ => chunks st ++ [join (buf st)]
  end.

Definition chunk_text (text : pystr) (max_chars : Z) : list pystr :=
  if len text <=? max_chars then [text]
  else finish (scan max_chars (splitlines text) init).

(** *** Predicates on the loop state used to state the properties *)

(** What a state holds: the emitted chunks followed by the pending buffer. *)
Definition contents (st : state) : pystr := join (chunks st) ++ join (buf st).

(** [size] is the length of the pending buffer. *)
Definition sized (st : state) : Prop := size st = len (join (buf st)).

(** A chunk is within the soft bound when it fits into [M], or when it is a
    prefix shorter than [M] followed by one line of the document. *)
Definition within (M : Z) (lines : list pystr) (c : pystr) : Prop :=
  len c <= M \/
  exists pre l, In l lines /\ c = pre ++ l /\ len pre < M /\ len c < M + len l.

(** Loop invariant of the size bound. *)
Definition bounded (M : Z) (lines : list pystr) (st : state) : Prop :=
  sized st /\ size st < M /\ Forall (within M lines) (chunks st).

(** Loop invariant of the absence of empty chunks. *)
Definition tidy (st : state) : Prop :=
  sized st /\ (buf st <> [] -> 0 < size st) /\
  Forall (fun c => c <> []) (chunks st).

(** The loop body with the first [if] taken: the buffer is flushed, then the
    line goes into the fresh buffer (and the second [if] is evaluated). *)
Definition step_flushing (max_chars : Z) (st : state) (line : pystr) : state :=
  flush_after max_chars (push line (flush st)).

(** The loop body with the first [if] not taken. *)
Definition step_keeping (max_chars : Z) (st : state) (line : pystr) : state :=
  flush_after max_chars (push line st).

(** The flush rule in the words of the design document: when the size of the
    buffer has reached or exceeded the maximum and the line is a boundary
    candidate, the buffer is flushed before the line is appended. *)
Definition flush_rule_as_documented
    (max_chars : Z) (st : state) (line : pystr) : Prop :=
  max_chars <= size st -> hard_boundary line = true ->
  step max_chars st line = step_flushing max_chars st line.

(** The lines read so far are grouped into the chunks emitted so far and
    the pending buffer: every chunk is the concatenation of a non-empty group
    of consecutive lines. *)
Definition grouped (done : list pystr) (st : state) : Prop :=
  exists groups,
    chunks st = List.map join groups /\
    Forall (fun g => g <> []) groups /\
    List.concat groups ++ buf st = done.

(** When a chunk may exceed the maximum: it is one line of the document on
    its own, or it ends with a line that is not a boundary candidate. *)
Definition overflow_allowed (M : Z) (lines : list pystr) (c : pystr) : Prop :=
  len c <= M \/
  In c lines \/
  exists pre l, c = pre ++ l /\ In l lines /\ 0 < len pre < M /\
                hard_boundary l = false.

(** Loop invariant of [overflow_allowed]. *)
Definition carefully_bounded (M : Z) (lines : list pystr) (st : state) : Prop :=
  sized st /\ size st < M /\ Forall (overflow_allowed M lines) (chunks st).

(** Why a chunk ends where it does: it has reached the maximum, or the next
    chunk starts with a boundary candidate that did not fit after it. *)
Definition cut_justified (M : Z) (lines : list pystr) (c next : pystr) : Prop :=
  M <= len c \/
  exists l rest, next = l ++ rest /\ In l lines /\ hard_boundary l = true /\
                 M < len c + len l.

(** The pending buffer justifies the end of the newest chunk. *)
Definition newest_justified (M : Z) (lines : list pystr) (st : state) : Prop :=
  forall older c, chunks st = older ++ [c] ->
    M <= len c \/
    exists l rest, buf st = l :: rest /\ In l lines /\ hard_boundary l = true /\
                   M < len c + len l.

(** Every two neighbours of a list are related. *)
Definition neighbours {A} (R : A -> A -> Prop) (l : list A) : Prop :=
  forall pre x y post, l = pre ++ x :: y :: post -> R x y.

(** Loop invariant of [cut_justified]. *)
Definition preferring (M : Z) (lines : list pystr) (st : state) : Prop :=
  sized st /\
  neighbours (cut_justified M lines) (chunks st) /\
  newest_justified M lines st.

(** A small document used to exercise the loop: three lines, the second a
    table row longer than the maximum [5]. *)
Definition example_doc : pystr :=
  py "ab" ++ [LF] ++ py "|cdefgh" ++ [LF] ++ py "ij".

Definition example_chunk : pystr := py "|cdefgh" ++ [LF].

(** A run of white space, as [str.strip] removes it. *)
Definition all_space (ws : pystr) : Prop :=
  Forall (fun c => isspace c = true) ws.

(** Three table rows, and three lines of prose. *)
Definition table_doc : pystr :=
  py "|a" ++ [LF] ++ py "|b" ++ [LF] ++ py "|c" ++ [LF].

Definition prose_doc : pystr :=
  py "ab" ++ [LF] ++ py "cd" ++ [LF] ++ py "ef".


(** A one-line document that is a table row. *)
Definition row_doc : pystr := py "|a" ++ [LF].

End Chunker.

(* ================================================================= *)
(** ** [pathlib]: the final component of a path *)

Module Pathlib.

(** A path, known by its final component [path.name]; the classifier reads
    nothing else of it. *)
Record Path := mkPath { name : pystr }.

Fixpoint rfind_from (c : char) (s : pystr) (i best : Z) : Z :=
  match s with
  | [] => best
  | x :: s' => rfind_from c s' (i + 1) (if x =? c then i else best)
  end.

(** [s.rfind(c)]: the highest index of [c] in [s], [-1] when absent. *)
Definition rfind (c : char) (s : pystr) : Z := rfind_from c s 0 (-1).

Definition dot : char := 46.

(** [path.stem]: the name without its last suffix; a leading or a trailing
    dot starts no suffix. *)
Definition stem (p : Path) : pystr :=
  let i := rfind dot (name p) in
  if (0 <? i) && (i <? len (name p) - 1)
  then firstn (Z.to_nat i) (name p)
  else name p.

(** [path.suffix]. *)
Definition suffix (p : Path) : pystr :=
  let i := rfind dot (name p) in
  if (0 <? i) && (i <? len (name p) - 1)
  then skipn (Z.to_nat i) (name p)
  else [].

End Pathlib.

(* ================================================================= *)
(** ** The type classifier: [infer_doc_type] *)

Module Classifier.
Import Pathlib.

(** The keywords of the script.  The three Japanese ones are written by
    their code points: U+89B3 U+70B9 (viewpoint), U+8A2D U+8A08 (design),
    U+4ED5 U+69D8 (specification). *)
Definition kw_kanten : pystr := [0x89b3; 0x70b9].
Definition kw_sekkei : pystr := [0x8a2d; 0x8a08].
Definition kw_shiyou : pystr := [0x4ed5; 0x69d8].
Definition kw_view : pystr := py "view".
Definition kw_test : pystr := py "test".
Definition kw_design : pystr := py "design".

Definition test_viewpoints : pystr := py "test_viewpoints".
Definition design_spec : pystr := py "design_spec".
Definition unknown : pystr := py "unknown".

Section WithLower.

(** [str.lower]: Python lower-cases with the Unicode case tables, which are
    outside the script; the classifier is parameterised by that function. *)
Variable lower : pystr -> pystr.

Definition infer_doc_type (path : Path) : pystr :=
  let name := lower (stem path) in
  if contains kw_kanten (Pathlib.name path) || contains kw_view name
     || contains kw_test name
  then test_viewpoints
  else if contains kw_sekkei (Pathlib.name path) || contains kw_design name
          || contains kw_shiyou (Pathlib.name path)
  then design_spec
  else unknown.

(** The classifier in the words of the design document: every keyword is
    looked for, case-insensitively, in the file stem; the test and viewpoint
    keywords are checked first. *)
Definition classify_on_stem (path : Path) : pystr :=
  let name := lower (stem path) in
  if contains kw_kanten name || contains kw_view name || contains kw_test name
  then test_viewpoints
  else if contains kw_sekkei name || contains kw_design name
          || contains kw_shiyou name
  then design_spec
  else unknown.

End WithLower.

(** Lower-casing of the ASCII letters, other code points unchanged. *)
Definition ascii_lower_char (c : char) : char :=
  if (65 <=? c) && (c <=? 90) then c + 32 else c.

Definition ascii_lower (s : pystr) : pystr := List.map ascii_lower_char s.

Definition is_ascii (s : pystr) : Prop :=
  Forall (fun c => 0 <= c < 128) s.

Definition is_asciib (s : pystr) : bool :=
  forallb (fun c => (0 <=? c) && (c <? 128)) s.

(** What the properties need of [str.lower]: on a text of ASCII characters
    it lower-cases the letters A to Z and changes nothing else. *)
Definition lowers_ascii (lower : pystr -> pystr) : Prop :=
  forall s, is_ascii s -> lower s = ascii_lower s.

(** [sub] occurs in [s]. *)
Definition occurs_in (sub s : pystr) : Prop :=
  exists pre post, s = pre ++ sub ++ post.

(** The name holds a test or viewpoint keyword, as the script looks for
    them: U+89B3 U+70B9 anywhere in the file name, [view] or [test] in the
    lower-cased stem. *)
Definition has_test_keyword (lower : pystr -> pystr) (path : Path) : Prop :=
  occurs_in kw_kanten (name path) \/
  occurs_in kw_view (lower (stem path)) \/
  occurs_in kw_test (lower (stem path)).

(** The name holds a design or specification keyword: U+8A2D U+8A08 or
    U+4ED5 U+69D8 anywhere in the file name, [design] in the lower-cased
    stem. *)
Definition has_design_keyword (lower : pystr -> pystr) (path : Path) : Prop :=
  occurs_in kw_sekkei (name path) \/
  occurs_in kw_design (lower (stem path)) \/
  occurs_in kw_shiyou (name path).

(** The classifier agrees with the reading of the design document. *)
Definition classifier_as_documented (lower : pystr -> pystr) : Prop :=
  forall path, infer_doc_type lower path = classify_on_stem lower path.

(** Three file names: both kinds of keyword in capitals, a Japanese design
    keyword (U+57FA U+672C U+8A2D U+8A08), no keyword. *)
Definition both_keywords : Path := mkPath (py "TEST_Design.xlsx").
Definition design_only : Path :=
  mkPath ([0x57fa; 0x672c] ++ kw_sekkei ++ py ".xlsx").
Definition no_keyword : Path := mkPath (py "book.xlsx").

(** A file whose extension, not its stem, holds a Japanese keyword:
    [a.] followed by U+89B3 U+70B9. *)
Definition keyword_in_suffix : Path := mkPath (py "a." ++ kw_kanten).

End Classifier.

(* ================================================================= *)
(** ** The table normalizer: [sanitize_df] *)

Module Normalizer.

(** A cell of a sheet as pandas holds it.  [NA] stands for every value that
    [pd.notnull] rejects (NaN, None, NaT).  The payload of a number is never
    inspected by the script. *)
Inductive cell :=
| NA
| Str (s : pystr)
| Num (n : Z)
| Timestamp (year month day : Z).

(** The dtype of a column, as far as the script looks at it. *)
Inductive dtype := Datetime64 | Object | Numeric.

Record Series := mkSeries { dt : dtype; values : list cell }.

(** A data frame: the length of its index and its columns in order (column
    labels are unique after [ExcelFile.parse], so that selecting by label is
    selecting by position). *)
Record DataFrame := mkFrame { nrows : nat; columns : list Series }.

(** [pd.notnull] on one cell. *)
Definition notnull (c : cell) : bool :=
  match c with NA => false | _ => true end.

(** [series.where(pd.notnull(series), "")].  In a column that is not a date
    column the cells that are not null are kept and the others become the
    empty string; a column that received a string is an object column.  A
    [datetime64] column reads the fill value as a date, and the empty string
    reads as NaT: the column keeps its dtype and its null cells. *)
Definition where_notnull (s : Series) : Series :=
  match dt s with
  | Datetime64 => s
  | _ =>
      mkSeries (if forallb notnull (values s) then dt s else Object)
               (List.map (fun c => if notnull c then c else Str []) (values s))
  end.

(** [pd.api.types.is_datetime64_any_dtype]. *)
Definition is_datetime64_any_dtype (s : Series) : bool :=
  match dt s with Datetime64 => true | _ => false end.

(** The decimal digits of a natural number, at least [width] of them
    (the format specifiers [%Y], [%m], [%d] and [02d]). *)
Definition digits (n : Z) : pystr :=
  py (NilZero.string_of_uint (N.to_uint (Z.to_N n))).

Definition zero_pad (width : nat) (s : pystr) : pystr :=
  List.repeat 48 (width - List.length s) ++ s.

(** [timestamp.strftime("%Y-%m-%d")]. *)
Definition strftime_ymd (year month day : Z) : pystr :=
  zero_pad 4 (digits year) ++ py "-" ++ zero_pad 2 (digits month)
  ++ py "-" ++ zero_pad 2 (digits day).

(** [series.dt.strftime("%Y-%m-%d")]: NaT is rendered as NaN. *)
Definition dt_strftime (s : Series) : Series :=
  mkSeries Object
    (List.map (fun c => match c with
                        | Timestamp y m d => Str (strftime_ymd y m d)
                        | _ => c
                        end) (values s)).

(** [series.ffill()]: a null cell takes the last value above it that is not
    null; nothing else changes. *)
Fixpoint ffill_from (last : cell) (vs : list cell) : list cell :=
  match vs with
  | [] => []
  | v :: vs' =>
      if notnull v then v :: ffill_from v vs' else last :: ffill_from last vs'
  end.

Definition ffill (s : Series) : Series :=
  mkSeries (dt s) (ffill_from NA (values s)).

Definition sanitize_df (df : DataFrame) : DataFrame :=
  (* df = df.where(pd.notnull(df), "") *)
  let cols := List.map where_notnull (columns df) in
  (* for col in df.columns: if is_datetime64_any_dtype: strftime *)
  let cols := List.map (fun s => if is_datetime64_any_dtype s
                                 then dt_strftime s else s) cols in
  (* if len(df.columns) > 0: df[df.columns[:2]] = df[df.columns[:2]].ffill() *)
  let cols := match cols with
              | [] => cols
              | _ :: _ => List.map ffill (firstn 2 cols) ++ skipn 2 cols
              end in
  mkFrame (nrows df) cols.

(** [df.empty]: one of the axes has length zero. *)
Definition empty (df : DataFrame) : bool :=
  (nrows df =? 0)%nat || (List.length (columns df) =? 0)%nat.

(** The forward fill of the design document on one column: a cell that is
    missing or empty takes the nearest value above it that is neither;
    [last] is that value, the empty string when there is none yet. *)
Definition is_blank (c : cell) : bool :=
  match c with NA => true | Str [] => true | _ => false end.

Fixpoint ffill_as_documented (last : cell) (vs : list cell) : list cell :=
  match vs with
  | [] => []
  | v :: vs' =>
      if is_blank v then last :: ffill_as_documented last vs'
      else v :: ffill_as_documented v vs'
  end.

(** What [sanitize_df] does to one column before the forward fill: outside
    the date columns the null cells become empty strings, and a column of
    dates becomes a column of ISO dates. *)
Definition clean (s : Series) : Series :=
  let s' := where_notnull s in
  if is_datetime64_any_dtype s' then dt_strftime s' else s'.

(** What [sanitize_df] does to the column at position [i]: the first two
    columns are forward-filled after the cleaning. *)
Definition sanitize_column (i : nat) (s : Series) : Series :=
  if (i <? 2)%nat then ffill (clean s) else clean s.

(** A cell of the result next to the cell it comes from: it is not null,
    and it is the empty string when the original was missing. *)
Definition blanked (original result : cell) : Prop :=
  result <> NA /\ (original = NA -> result = Str []).

(** A cell that holds a text or a number. *)
Definition is_text_or_number (c : cell) : bool :=
  match c with Str _ | Num _ => true | _ => false end.

(** A sheet with a merged cell in its first column: the second row of the
    first column is missing. *)
Definition merged_cell_frame : DataFrame :=
  mkFrame 2 [ mkSeries Object [Str (py "A"); NA];
              mkSeries Object [Str (py "x"); Str (py "y")] ].

(** A sheet whose third column holds dates, the second of them missing. *)
Definition dated_frame : DataFrame :=
  mkFrame 2 [ mkSeries Object [Str (py "a"); Str (py "b")];
              mkSeries Object [Str (py "x"); Str (py "y")];
              mkSeries Datetime64 [Timestamp 2024 1 5; NA] ].

End Normalizer.

(* ================================================================= *)
(** ** [str.encode("utf-8")] and [hashlib.md5] *)

Module Hashlib.

(** A byte string: bytes as integers in [0, 256). *)
Definition bytes := list Z.

(** The UTF-8 encoding of one code point; a surrogate has none. *)
Definition encode_char (c : char) : option bytes :=
  if (c <? 0) || (0x10FFFF <? c) then None
  else if c <? 0x80 then Some [c]
  else if c <? 0x800 then Some [0xC0 + c / 64; 0x80 + c mod 64]
  else if (0xD800 <=? c) && (c <=? 0xDFFF) then None
  else if c <? 0x10000 then
    Some [0xE0 + c / 4096; 0x80 + (c / 64) mod 64; 0x80 + c mod 64]
  else
    Some [0xF0 + c / 262144; 0x80 + (c / 4096) mod 64;
          0x80 + (c / 64) mod 64; 0x80 + c mod 64].

(** [s.encode("utf-8")]; [None] stands for [UnicodeEncodeError]. *)
Fixpoint encode_utf8 (s : pystr) : option bytes :=
  match s with
  | [] => Some []
  | c :: s' =>
      match encode_char c, encode_utf8 s' with
      | Some b, Some bs => Some (b ++ bs)
      | _, _ => None
      end
  end.

(** *** MD5 (RFC 1321) on 32-bit words kept in [Z] *)

Definition w32 : Z := 0x100000000.

Definition add32 (a b : Z) : Z := (a + b) mod w32.

Definition not32 (a : Z) : Z := Z.lxor a 0xFFFFFFFF.

Definition rotl32 (x s : Z) : Z :=
  Z.lor (Z.shiftl x s mod w32) (Z.shiftr x (32 - s)).

Definition F (b c d : Z) : Z := Z.lor (Z.land b c) (Z.land (not32 b) d).
Definition G (b c d : Z) : Z := Z.lor (Z.land b d) (Z.land c (not32 d)).
Definition H (b c d : Z) : Z := Z.lxor (Z.lxor b c) d.
Definition I (b c d : Z) : Z := Z.lxor c (Z.lor b (not32 d)).

(** The per-round shift amounts. *)
Definition S : list Z :=
  [7; 12; 17; 22; 7; 12; 17; 22; 7; 12; 17; 22; 7; 12; 17; 22;
   5;  9; 14; 20; 5;  9; 14; 20; 5;  9; 14; 20; 5;  9; 14; 20;
   4; 11; 16; 23; 4; 11; 16; 23; 4; 11; 16; 23; 4; 11; 16; 23;
   6; 10; 15; 21; 6; 10; 15; 21; 6; 10; 15; 21; 6; 10; 15; 21].

(** The per-round constants [floor(2^32 * abs(sin(i + 1)))]. *)
Definition K : list Z :=
  [0xd76aa478; 0xe8c7b756; 0x242070db; 0xc1bdceee;
   0xf57c0faf; 0x4787c62a; 0xa8304613; 0xfd469501;
   0x698098d8; 0x8b44f7af; 0xffff5bb1; 0x895cd7be;
   0x6b901122; 0xfd987193; 0xa679438e; 0x49b40821;
   0xf61e2562; 0xc040b340; 0x265e5a51; 0xe9b6c7aa;
   0xd62f105d; 0x02441453; 0xd8a1e681; 0xe7d3fbc8;
   0x21e1cde6; 0xc33707d6; 0xf4d50d87; 0x455a14ed;
   0xa9e3e905; 0xfcefa3f8; 0x676f02d9; 0x8d2a4c8a;
   0xfffa3942; 0x8771f681; 0x6d9d6122; 0xfde5380c;
   0xa4beea44; 0x4bdecfa9; 0xf6bb4b60; 0xbebfbc70;
   0x289b7ec6; 0xeaa127fa; 0xd4ef3085; 0x04881d05;
   0xd9d4d039; 0xe6db99e5; 0x1fa27cf8; 0xc4ac5665;
   0xf4292244; 0x432aff97; 0xab9423a7; 0xfc93a039;
   0x655b59c3; 0x8f0ccc92; 0xffeff47d; 0x85845dd1;
   0x6fa87e4f; 0xfe2ce6e0; 0xa3014314; 0x4e0811a1;
   0xf7537e82; 0xbd3af235; 0x2ad7d2bb; 0xeb86d391].

(** The chaining value [(A, B, C, D)]. *)
Definition digest_state : Type := Z * Z * Z * Z.

Definition initial_state : digest_state :=
  (0x67452301, 0xefcdab89, 0x98badcfe, 0x10325476).

(** The first [n] little-endian 32-bit words of a byte string. *)
Fixpoint words (n : nat) (bs : bytes) : list Z :=
  match n, bs with
  | Datatypes.S n', b0 :: b1 :: b2 :: b3 :: rest =>
      (b0 + 256 * b1 + 65536 * b2 + 16777216 * b3) :: words n' rest
  | _, _ => []
  end.

(** One of the 64 operations on a block whose words are [m]. *)
Definition operation (m : list Z) (st : digest_state) (i : nat) : digest_state :=
  let '(a, b, c, d) := st in
  let '(f, g) :=
    if (i <? 16)%nat then (F b c d, i)
    else if (i <? 32)%nat then (G b c d, ((5 * i + 1) mod 16)%nat)
    else if (i <? 48)%nat then (H b c d, ((3 * i + 5) mod 16)%nat)
    else (I b c d, ((7 * i) mod 16)%nat) in
  let x := add32 (add32 (add32 f a) (nth i K 0)) (nth g m 0) in
  (d, add32 b (rotl32 x (nth i S 0)), b, c).

Definition process_block (st : digest_state) (block : bytes) : digest_state :=
  let '(a0, b0, c0, d0) := st in
  let '(a, b, c, d) := fold_left (operation (words 16 block)) (seq 0 64) st in
  (add32 a0 a, add32 b0 b, add32 c0 c, add32 d0 d).

Fixpoint process_blocks (n : nat) (st : digest_state) (bs : bytes)
  : digest_state :=
  match n with
  | O => st
  | Datatypes.S n' =>
      process_blocks n' (process_block st (firstn 64 bs)) (skipn 64 bs)
  end.

(** The [n] low bytes of [x], least significant first. *)
Fixpoint le_bytes (n : nat) (x : Z) : bytes :=
  match n with
  | O => []
  | Datatypes.S n' => (x mod 256) :: le_bytes n' (x / 256)
  end.

(** Padding: a one bit, zeros up to 56 modulo 64, the bit length on 64 bits. *)
Definition pad (msg : bytes) : bytes :=
  let l := Z.of_nat (List.length msg) in
  msg ++ [0x80] ++ List.repeat 0 (Z.to_nat ((55 - l) mod 64))
      ++ le_bytes 8 (8 * l).

Definition md5_state (msg : bytes) : digest_state :=
  let padded := pad msg in
  process_blocks (List.length padded / 64) initial_state padded.

Definition hex_digit (n : Z) : char :=
  nth (Z.to_nat n) (py "0123456789abcdef") 48.

Definition hex_byte (b : Z) : pystr := [hex_digit (b / 16); hex_digit (b mod 16)].

Definition hex_word (w : Z) : pystr := List.concat (List.map hex_byte (le_bytes 4 w)).

(** [hashlib.md5(msg).hexdigest()]. *)
Definition md5_hexdigest (msg : bytes) : pystr :=
  let '(a, b, c, d) := md5_state msg in
  hex_word a ++ hex_word b ++ hex_word c ++ hex_word d.

End Hashlib.

(* ================================================================= *)
(** ** The renderer and the emitter: [process_excel] *)

Module Pipeline.
Import Pathlib Normalizer Hashlib.

Definition MAX_CHARS_PER_CHUNK : Z := 8000.

(** The files of the output directory: name and content, newest first. *)
Definition directory := list (pystr * bytes).

(** [(out_dir / name).write_text(...)]: the file is created, or replaced
    when the name is taken. *)
Definition write_file (dir : directory) (name : pystr) (data : bytes)
  : directory :=
  (name, data) :: List.filter (fun f => negb (str_eqb (fst f) name)) dir.

(** How the writing of a document ends. *)
Inductive outcome :=
| Written (dir : directory)
| UnicodeEncodeError (dir : directory).

(** The format specifier [02d]. *)
Definition format_02d (i : Z) : pystr := zero_pad 2 (digits i).

(** [f"__part{i:02d}"] when there are several chunks, nothing otherwise. *)
Definition part_suffix (nchunks : nat) (i : Z) : pystr :=
  if (1 <? nchunks)%nat then py "__part" ++ format_02d i else [].

(** [hashlib.md5(chunk.encode("utf-8")).hexdigest()[:8]]. *)
Definition content_hash (chunk : pystr) : option pystr :=
  option_map (fun data => firstn 8 (md5_hexdigest data)) (encode_utf8 chunk).

(** [out_name] for chunk number [i] of [nchunks] chunks. *)
Definition out_name (path : Path) (sheet : pystr) (nchunks : nat) (i : Z)
    (chunk : pystr) : option pystr :=
  option_map
    (fun h => (stem path ++ py "__" ++ sheet ++ part_suffix nchunks i)
              ++ py "__" ++ h ++ py ".md")
    (content_hash chunk).

(** [for i, chunk in enumerate(chunks, start=1)], from chunk number [i] on. *)
Fixpoint write_chunks (path : Path) (sheet : pystr) (nchunks : nat) (i : Z)
    (chunks : list pystr) (dir : directory) : outcome :=
  match chunks with
  | [] => Written dir
  | chunk :: rest =>
      match out_name path sheet nchunks i chunk, encode_utf8 chunk with
      | Some name, Some data =>
          write_chunks path sheet nchunks (i + 1) rest
                       (write_file dir name data)
      | _, _ => UnicodeEncodeError dir
      end
  end.

Section WithRenderers.

(** [str.lower], see the classifier. *)
Variable lower : pystr -> pystr.

(** [yaml.safe_dump(meta, allow_unicode=True, sort_keys=False)] on the
    ordered key-value pairs of [meta]. *)
Variable yaml_safe_dump : list (pystr * pystr) -> pystr.

(** [df.to_markdown(index=False)]. *)
Variable to_markdown : DataFrame -> pystr.

Definition df_to_markdown (df : DataFrame) : pystr := to_markdown df.

Definition make_front_matter (meta : list (pystr * pystr)) : pystr :=
  py "---" ++ [LF] ++ yaml_safe_dump meta ++ py "---" ++ [LF; LF].

(** The dictionary [meta]; [now] is [datetime.utcnow().isoformat()]. *)
Definition metadata (path : Path) (sheet now : pystr) : list (pystr * pystr) :=
  [ (py "source_file", name path);
    (py "sheet", sheet);
    (py "doc_type", Classifier.infer_doc_type lower path);
    (py "generated_at", now ++ py "Z") ].

(** [f"# {xlsx_path.stem} - {sheet}\n\n"]. *)
Definition title_line (path : Path) (sheet : pystr) : pystr :=
  py "# " ++ stem path ++ py " - " ++ sheet ++ [LF; LF].

(** [md_core]: the title, then the table unless the frame is empty. *)
Definition md_core (path : Path) (sheet : pystr) (df : DataFrame) : pystr :=
  join (title_line path sheet ::
        (if negb (empty df) then [df_to_markdown df; [LF]] else [])).

(** [full_md] of one sheet; [df] is the frame as parsed. *)
Definition full_md (path : Path) (sheet now : pystr) (df : DataFrame) : pystr :=
  make_front_matter (metadata path sheet now)
  ++ md_core path sheet (sanitize_df df).

(** The body of [for sheet in xls.sheet_names]. *)
Definition process_sheet (path : Path) (sheet now : pystr) (df : DataFrame)
    (dir : directory) : outcome :=
  let chunks := Chunker.chunk_text (full_md path sheet now df)
                                   MAX_CHARS_PER_CHUNK in
  write_chunks path sheet (List.length chunks) 1 chunks dir.

(** [process_excel]: the sheets of the workbook in order, each with its
    parsed frame and the reading of the clock; an exception ends the loop. *)
Fixpoint process_excel (path : Path)
    (sheets : list (pystr * pystr * DataFrame)) (dir : directory) : outcome :=
  match sheets with
  | [] => Written dir
  | (sheet, now, df) :: rest =>
      match process_sheet path sheet now df dir with
      | Written dir' => process_excel path rest dir'
      | UnicodeEncodeError dir' => UnicodeEncodeError dir'
      end
  end.

End WithRenderers.

(** *** The command line: [main] *)

Definition SUPPORTED_EXT : list pystr := [py ".xlsx"; py ".xlsm"; py ".xls"].

Section WithWorkbooks.

Variable lower : pystr -> pystr.
Variable yaml_safe_dump : list (pystr * pystr) -> pystr.
Variable to_markdown : DataFrame -> pystr.

(** [p.suffix.lower() in SUPPORTED_EXT]. *)
Definition supported (p : Path) : bool :=
  existsb (str_eqb (lower (suffix p))) SUPPORTED_EXT.

(** [for p in in_dir.rglob("*")]: the files found, each with the sheets that
    pandas reads from it (name, reading of the clock, frame); [count] is
    the counter of the loop.  A file that pandas cannot read is outside the
    model. *)
Fixpoint main_loop (files : list (Path * list (pystr * pystr * DataFrame)))
    (dir : directory) (count : Z) : outcome * Z :=
  match files with
  | [] => (Written dir, count)
  | (p, sheets) :: rest =>
      if supported p then
        match process_excel lower yaml_safe_dump to_markdown p sheets dir with
        | Written dir' => main_loop rest dir' (count + 1)
        | UnicodeEncodeError dir' => (UnicodeEncodeError dir', count)
        end
      else main_loop rest dir count
  end.

(** [main]: the directory when the loop ends and the count it prints. *)
Definition main (files : list (Path * list (pystr * pystr * DataFrame)))
    (dir : directory) : outcome * Z :=
  main_loop files dir 0.

End WithWorkbooks.

(** *** Notions used to state the properties of the emitter *)

(** A code point that UTF-8 encodes: in the range of Unicode and not a
    surrogate. *)
Definition encodable (c : char) : Prop :=
  0 <= c <= 0x10FFFF /\ ~ (0xD800 <= c <= 0xDFFF).

(** A [pystr] of ASCII characters as a string. *)
Definition unpy (s : pystr) : string :=
  string_of_list_ascii (List.map (fun c => ascii_of_N (Z.to_N c)) s).

(** [int(s)] on decimal digits. *)
Definition int_of_digits (s : pystr) : option Z :=
  option_map (fun d => Z.of_N (N.of_uint d)) (NilEmpty.uint_of_string (unpy s)).

(** A listing with a text file between two workbooks, all of them with an
    empty sheet. *)
Definition listing : list (Path * list (pystr * pystr * DataFrame)) :=
  [ (mkPath (py "a.xlsx"), [(py "S", py "t", mkFrame 0 [])]);
    (mkPath (py "notes.txt"), [(py "S", py "t", mkFrame 0 [])]);
    (mkPath (py "b.XLS"), [(py "S", py "t", mkFrame 0 [])]) ].

(** A directory that holds one file already. *)
Definition old_directory : directory := [(py "old.md", [111; 108; 100])].

(** Stand-ins for the two renderers, used to run the pipeline on examples:
    one [key: value] line per entry, and a table rendered as nothing. *)
Definition plain_yaml (meta : list (pystr * pystr)) : pystr :=
  List.concat (List.map (fun kv => fst kv ++ py ": " ++ snd kv ++ [LF]) meta).

Definition no_table (df : DataFrame) : pystr := [].

(** A sheet with a header row and no data row. *)
Definition header_only_frame : DataFrame := mkFrame 0 [mkSeries Object []].

Definition noon : pystr := py "2024-01-05T12:00:00".

(** The uniqueness of names in the words of the design document: two
    contents that differ get names that differ, the base identity and the
    part being the same. *)
Definition names_differ_as_documented : Prop :=
  forall path sheet nchunks i chunk1 chunk2 name1 name2,
    chunk1 <> chunk2 ->
    out_name path sheet nchunks i chunk1 = Some name1 ->
    out_name path sheet nchunks i chunk2 = Some name2 ->
    name1 <> name2.

(** Two documents of the sheet [Sheet1] of [book.xlsx] that differ in one
    table cell. *)
Definition book : Path := mkPath (py "book.xlsx").
Definition sheet1 : pystr := py "Sheet1".

Definition table_with (cell : pystr) : pystr :=
  py "# book - Sheet1" ++ [LF; LF] ++ py "| id |" ++ [LF]
  ++ py "|---:|" ++ [LF] ++ py "| " ++ cell ++ py " |" ++ [LF].

Definition document_a : pystr := table_with (py "16011").
Definition document_b : pystr := table_with (py "77376").

End Pipeline.

(* ================================================================= *)
(** ** Facts about the string builtins *)

Module PyStrFacts.

Lemma len_nonneg (s : pystr) : 0 <= len s.
Proof. unfold len. lia. Qed.

Lemma len_app (s t : pystr) : len (s ++ t) = len s + len t.
Proof. unfold len. rewrite length_app. lia. Qed.

Lemma len_nil_iff (s : pystr) : len s = 0 <-> s = [].
Proof.
  unfold len. destruct s as [|c s]; simpl; split; intro H;
    try reflexivity; try discriminate; lia.
Qed.

Lemma len_pos_iff (s : pystr) : 0 < len s <-> s <> [].
Proof.
  pose proof (len_nonneg s) as Hn. pose proof (len_nil_iff s) as Hz.
  split; intro H.
  - intro E. apply Hz in E. lia.
  - destruct (Z.eq_dec (len s) 0) as [E|E]; [apply Hz in E; contradiction | lia].
Qed.

Lemma join_app (xs ys : list pystr) : join (xs ++ ys) = join xs ++ join ys.
Proof. apply concat_app. Qed.

Lemma join_single (x : pystr) : join [x] = x.
Proof. unfold join. simpl. apply app_nil_r. Qed.

(** Joining the lines of [splitlines(keepends=True)] gives the text back. *)
Lemma splitlines_from_join_upto (n : nat) :
  forall s, (List.length s <= n)%nat ->
  forall cur, join (splitlines_from cur s) = cur ++ s.
Proof.
  induction n as [|n IH]; intros s Hn cur.
  - destruct s; [|simpl in Hn; lia]. simpl.
    destruct cur; simpl; [reflexivity | now rewrite !app_nil_r].
  - destruct s as [|c rest]; simpl.
    + destruct cur; simpl; [reflexivity | now rewrite !app_nil_r].
    + simpl in Hn. destruct (is_linebreak c).
      * destruct rest as [|d rest'].
        -- simpl. now rewrite !app_nil_r.
        -- destruct ((c =? CR) && (d =? LF)); unfold join in *;
             rewrite concat_cons.
           ++ rewrite IH by (simpl in Hn; lia). now rewrite <- app_assoc.
           ++ rewrite IH by lia. now rewrite <- app_assoc.
      * rewrite IH by lia. now rewrite <- app_assoc.
Qed.

Lemma splitlines_from_join (s cur : pystr) :
  join (splitlines_from cur s) = cur ++ s.
Proof. now apply (splitlines_from_join_upto (List.length s)). Qed.

Lemma splitlines_join (s : pystr) : join (splitlines s) = s.
Proof. unfold splitlines. now rewrite splitlines_from_join. Qed.

(** [splitlines] never yields an empty line. *)
Lemma splitlines_from_nonempty_upto (n : nat) :
  forall s, (List.length s <= n)%nat ->
  forall cur l, In l (splitlines_from cur s) -> l <> [].
Proof.
  induction n as [|n IH]; intros s Hn cur l.
  - destruct s; [|simpl in Hn; lia]. simpl.
    destruct cur; simpl; [tauto|]. intros [<-|[]]. discriminate.
  - destruct s as [|c rest]; simpl.
    + destruct cur; simpl; [tauto|]. intros [<-|[]]. discriminate.
    + simpl in Hn. destruct (is_linebreak c).
      * destruct rest as [|d rest'].
        -- simpl. intros [<-|[]]. now destruct cur.
        -- destruct ((c =? CR) && (d =? LF)); intros [<-|Hin];
             try (now destruct cur).
           ++ apply (IH rest') in Hin; [exact Hin | simpl in Hn; lia].
           ++ apply (IH (d :: rest')) in Hin; [exact Hin | lia].
      * intro Hin. apply (IH rest) in Hin; [exact Hin | lia].
Qed.

Lemma splitlines_nonempty (s l : pystr) : In l (splitlines s) -> l <> [].
Proof. now apply (splitlines_from_nonempty_upto (List.length s)). Qed.

End PyStrFacts.

Import PyStrFacts.

(* ================================================================= *)
(** ** Properties of the chunker *)

Module ChunkerFacts.
Import Chunker.

(** Induction principle of the [for] loop: a property of the loop state that
    every iteration preserves holds when the loop ends. *)
Lemma scan_invariant (P : state -> Prop) (max_chars : Z) (lines : list pystr) :
  (forall st line, In line lines -> P st -> P (step max_chars st line)) ->
  forall st, P st -> P (scan max_chars lines st).
Proof.
  unfold scan. induction lines as [|l ls IH]; intros Hstep st Hst; simpl.
  - exact Hst.
  - apply IH.
    + intros st' line Hin. apply Hstep. now right.
    + apply Hstep; [now left | exact Hst].
Qed.

Lemma contents_flush st : contents (flush st) = contents st.
Proof.
  unfold contents, flush; simpl.
  now rewrite join_app, join_single, app_nil_r.
Qed.

Lemma contents_push line st : contents (push line st) = contents st ++ line.
Proof.
  unfold contents, push; simpl.
  now rewrite join_app, join_single, app_assoc.
Qed.

Lemma contents_step max_chars st line :
  contents (step max_chars st line) = contents st ++ line.
Proof.
  unfold step, flush_after.
  destruct (flush_before max_chars st line);
    destruct (max_chars <=? _);
    now rewrite ?contents_flush, contents_push, ?contents_flush.
Qed.

Lemma contents_scan max_chars lines :
  forall st, contents (scan max_chars lines st) = contents st ++ join lines.
Proof.
  unfold scan. induction lines as [|l ls IH]; intro st; simpl.
  - now rewrite app_nil_r.
  - rewrite IH, contents_step. now rewrite <- app_assoc.
Qed.

Lemma join_finish st : join (finish st) = contents st.
Proof.
  unfold finish, contents. destruct (buf st) as [|b bs] eqn:E.
  - now rewrite app_nil_r.
  - now rewrite join_app, join_single.
Qed.

(** The chunks are a partition of the text: the short-cut returns the text,
    the loop hands every line to exactly one chunk. *)
Lemma join_chunk_text (text : pystr) (max_chars : Z) :
  join (chunk_text text max_chars) = text.
Proof.
  unfold chunk_text. destruct (len text <=? max_chars).
  - apply join_single.
  - rewrite join_finish, contents_scan. simpl. apply splitlines_join.
Qed.

(** C1. Concatenating the chunks of [chunk_text(D, M)] in order gives [D]
    back, for every document [D] and every maximum [M] (positive or not). *)
Theorem chunk_text_roundtrip (D : pystr) (M : Z) :
  join (chunk_text D M) = D.
Proof. apply join_chunk_text. Qed.

(** C5. When [len(D) <= M], [chunk_text(D, M)] is exactly [[D]]. *)
Theorem chunk_text_small (D : pystr) (M : Z) :
  len D <= M -> chunk_text D M = [D].
Proof.
  intro H. unfold chunk_text.
  destruct (len D <=? M) eqn:E; [reflexivity|].
  apply Z.leb_gt in E. lia.
Qed.

Lemma chunk_text_small_witness :
  len (py "# t") <= 8000 /\ chunk_text (py "# t") 8000 = [py "# t"].
Proof.
  split; [vm_compute; discriminate | apply chunk_text_small; vm_compute; discriminate].
Defined.

Example chunk_text_example_doc :
  chunk_text example_doc 5 = [py "ab" ++ [LF]; example_chunk; py "ij"].
Proof. reflexivity. Qed.

(** *** The loop variable [size] *)

Lemma sized_init : sized init.
Proof. reflexivity. Qed.

Lemma sized_flush st : sized (flush st).
Proof. reflexivity. Qed.

Lemma sized_push line st : sized st -> sized (push line st).
Proof.
  unfold sized, push; simpl. intros ->.
  now rewrite join_app, join_single, len_app.
Qed.

Lemma sized_step max_chars st line : sized st -> sized (step max_chars st line).
Proof.
  intro H. unfold step, flush_after.
  destruct (flush_before max_chars st line); destruct (max_chars <=? _);
    auto using sized_flush, sized_push.
Qed.

Lemma flush_before_true_iff max_chars st line :
  flush_before max_chars st line = true <->
  0 < size st /\ max_chars < size st + len line /\ hard_boundary line = true.
Proof.
  unfold flush_before. rewrite !andb_true_iff, !Z.ltb_lt. tauto.
Qed.

(** *** The flush before a boundary line *)

(** The first [if] decides between the two shapes of the loop body. *)
Lemma step_cases max_chars st line :
  step max_chars st line =
  if flush_before max_chars st line
  then step_flushing max_chars st line
  else step_keeping max_chars st line.
Proof. unfold step. now destruct (flush_before max_chars st line). Qed.

(** The maximum [0] is the one degenerate case of the rule: the size [0] of
    the empty buffer has then reached the maximum when the table row [|a] is
    read, and the empty buffer is not flushed before the row is appended
    ([size > 0] guards the flush); the row is the only chunk. *)
Lemma flush_rule_as_documented_fails :
  chunk_text row_doc 0 = [row_doc] /\
  ~ flush_rule_as_documented 0 init row_doc.
Proof.
  split; [reflexivity|].
  unfold flush_rule_as_documented. intro H.
  assert (E : step 0 init row_doc = step_flushing 0 init row_doc)
    by (apply H; [discriminate | reflexivity]).
  vm_compute in E. discriminate E.
Qed.

(** A chunk, once emitted, stays in the result. *)
Lemma chunks_flush_after max_chars st c :
  In c (chunks st) -> In c (chunks (flush_after max_chars st)).
Proof.
  unfold flush_after, flush. destruct (max_chars <=? size st); simpl; auto.
  intro H. apply in_or_app. now left.
Qed.

Lemma chunks_step max_chars st line c :
  In c (chunks st) -> In c (chunks (step max_chars st line)).
Proof.
  intro H. unfold step. apply chunks_flush_after. unfold push; simpl.
  destruct (flush_before max_chars st line); simpl; auto.
  apply in_or_app. now left.
Qed.

Lemma chunks_scan max_chars lines :
  forall st c, In c (chunks st) -> In c (chunks (scan max_chars lines st)).
Proof.
  unfold scan. induction lines as [|l ls IH]; intros st c H; simpl; auto.
  apply IH. now apply chunks_step.
Qed.

Lemma chunks_finish st c : In c (chunks st) -> In c (finish st).
Proof.
  unfold finish. destruct (buf st); auto. intro H. apply in_or_app. now left.
Qed.

(** The guard of the first [if], as the code has it.  When the buffer is not
    empty, appending the line would take the size above the maximum, and the
    line is a boundary candidate, the buffer is flushed as a chunk before
    the line is appended to a fresh buffer; the flushed buffer is one of the
    chunks that the scan returns, whatever lines follow. *)
Theorem flush_before_boundary_line (max_chars : Z) (st : state) (line : pystr) :
  0 < size st ->
  max_chars < size st + len line ->
  hard_boundary line = true ->
  step max_chars st line = flush_after max_chars (push line (flush st)) /\
  chunks (push line (flush st)) = chunks st ++ [join (buf st)] /\
  buf (push line (flush st)) = [line] /\
  (forall later,
     In (join (buf st)) (finish (scan max_chars (line :: later) st))).
Proof.
  intros Hpos Hover Hb.
  assert (E : step max_chars st line
              = flush_after max_chars (push line (flush st))).
  { rewrite step_cases.
    assert (G : flush_before max_chars st line = true)
      by (apply flush_before_true_iff; auto).
    now rewrite G. }
  repeat split; auto.
  intro later. apply chunks_finish. unfold scan; simpl. fold (scan max_chars later).
  apply chunks_scan. rewrite E. apply chunks_flush_after. simpl.
  apply in_or_app. right. now left.
Qed.

Lemma flush_before_boundary_line_witness :
  0 < size (scan 5 [py "ab" ++ [LF]] init) /\
  5 < size (scan 5 [py "ab" ++ [LF]] init) + len example_chunk /\
  hard_boundary example_chunk = true /\
  step 5 (scan 5 [py "ab" ++ [LF]] init) example_chunk =
    flush_after 5 (push example_chunk (flush (scan 5 [py "ab" ++ [LF]] init))) /\
  chunks (push example_chunk (flush (scan 5 [py "ab" ++ [LF]] init))) =
    chunks (scan 5 [py "ab" ++ [LF]] init) ++
    [join (buf (scan 5 [py "ab" ++ [LF]] init))] /\
  buf (push example_chunk (flush (scan 5 [py "ab" ++ [LF]] init))) =
    [example_chunk] /\
  (forall later,
     In (join (buf (scan 5 [py "ab" ++ [LF]] init)))
        (finish (scan 5 (example_chunk :: later)
                      (scan 5 [py "ab" ++ [LF]] init)))).
Proof.
  assert (H1 : 0 < size (scan 5 [py "ab" ++ [LF]] init)) by reflexivity.
  assert (H2 : 5 < size (scan 5 [py "ab" ++ [LF]] init) + len example_chunk)
    by reflexivity.
  assert (H3 : hard_boundary example_chunk = true) by reflexivity.
  exact (conj H1 (conj H2 (conj H3
    (flush_before_boundary_line 5 _ example_chunk H1 H2 H3)))).
Defined.



(** In every other case the line joins the pending buffer. *)
Lemma no_flush_before_otherwise max_chars st line :
  size st <= 0 \/ size st + len line <= max_chars \/ hard_boundary line = false ->
  step max_chars st line = step_keeping max_chars st line.
Proof.
  intro H. rewrite step_cases.
  destruct (flush_before max_chars st line) eqn:E; [|reflexivity].
  apply flush_before_true_iff in E. destruct E as (E1 & E2 & E3).
  destruct H as [H|[H|H]]; try lia. congruence.
Qed.

(** A boundary line that fills the buffer exactly to the maximum is appended
    to the pending buffer; the flush comes after it. *)
Example exact_fit_is_not_flushed_before :
  chunk_text (py "ab" ++ [LF] ++ py "|c" ++ [LF] ++ py "d") 6 =
  [py "ab" ++ [LF] ++ py "|c" ++ [LF]; py "d"].
Proof. reflexivity. Qed.

(** *** The size bound *)

Section SoftBound.
Variable M : Z.
Variable lines : list pystr.
Hypothesis M_pos : 0 < M.

Local Abbreviation within := (within M lines).
Local Abbreviation bounded := (bounded M lines).

Lemma bounded_init : bounded init.
Proof. repeat split; simpl; auto; lia. Qed.

Lemma bounded_flush st : bounded st -> bounded (flush st).
Proof.
  intros (Hs & Hlt & Hc). repeat split; simpl; try lia.
  apply Forall_app. split; [exact Hc|].
  constructor; [|constructor]. left. unfold sized in Hs. lia.
Qed.

Lemma bounded_step st line :
  In line lines -> bounded st -> bounded (step M st line).
Proof.
  intros Hin Hb. unfold step.
  set (st1 := if flush_before M st line then flush st else st).
  assert (H1 : bounded st1).
  { subst st1. destruct (flush_before M st line); auto using bounded_flush. }
  clearbody st1. destruct H1 as (Hs & Hlt & Hc).
  unfold flush_after. destruct (M <=? size (push line st1)) eqn:E.
  - repeat split; simpl; try lia.
    apply Forall_app. split; [exact Hc|].
    constructor; [|constructor]. right.
    exists (join (buf st1)), line.
    rewrite join_app, join_single, len_app. unfold sized in Hs.
    repeat split; auto; lia.
  - apply Z.leb_gt in E. repeat split; auto using sized_push.
Qed.

Lemma bounded_scan st : bounded st -> bounded (scan M lines st).
Proof. apply scan_invariant. intros; now apply bounded_step. Qed.

Lemma bounded_finish st c : bounded st -> In c (finish st) -> within c.
Proof.
  intros (Hs & Hlt & Hc) Hin. unfold finish in Hin. unfold sized in Hs.
  rewrite Forall_forall in Hc.
  destruct (buf st) as [|b bs] eqn:E; [now apply Hc|].
  apply in_app_or in Hin as [Hin|[<-|[]]]; [now apply Hc|].
  left. lia.
Qed.
End SoftBound.

(** With a positive maximum the buffer is below the maximum whenever the
    loop reads a line: the second [if] has emptied it otherwise. *)
Lemma size_below_max_at_loop_head (M : Z) (before : list pystr) :
  0 < M -> size (scan M before init) < M.
Proof.
  intro HM.
  destruct (bounded_scan M before HM init (bounded_init M before HM))
    as (_ & H & _).
  exact H.
Qed.

(** C4. For a positive maximum [M], every chunk of [chunk_text(D, M)] is at
    most [M] long, or it is a buffer shorter than [M] followed by the one
    line of [D] that pushed it over the maximum; its length is then below
    [M] plus the length of that line. *)
Theorem chunk_text_soft_bound (D : pystr) (M : Z) :
  0 < M ->
  forall c, In c (chunk_text D M) ->
    len c <= M \/
    exists pre l, In l (splitlines D) /\ c = pre ++ l /\
                  len pre < M /\ len c < M + len l.
Proof.
  intros HM c. unfold chunk_text. destruct (len D <=? M) eqn:E.
  - intros [<-|[]]. left. now apply Z.leb_le.
  - intro Hin.
    apply (bounded_finish M (splitlines D) (scan M (splitlines D) init) c);
      [|exact Hin].
    apply bounded_scan; [exact HM | now apply bounded_init].
Qed.

Lemma chunk_text_soft_bound_witness :
  0 < 5 /\ In example_chunk (chunk_text example_doc 5) /\
  (len example_chunk <= 5 \/
   exists pre l, In l (splitlines example_doc) /\ example_chunk = pre ++ l /\
                 len pre < 5 /\ len example_chunk < 5 + len l).
Proof.
  assert (H0 : 0 < 5) by reflexivity.
  assert (Hin : In example_chunk (chunk_text example_doc 5))
    by (vm_compute; tauto).
  exact (conj H0 (conj Hin
          (chunk_text_soft_bound example_doc 5 H0 example_chunk Hin))).
Defined.

(** *** No empty chunk *)

Section NonEmpty.
Variable M : Z.
Variable lines : list pystr.
Hypothesis lines_nonempty : forall l, In l lines -> l <> [].

Lemma tidy_init : tidy init.
Proof. repeat split; simpl; auto. congruence. Qed.

Lemma tidy_flush st : tidy st -> 0 < size st -> tidy (flush st).
Proof.
  intros (Hs & Hb & Hc) Hpos. repeat split; simpl; [congruence|].
  apply Forall_app. split; [exact Hc|].
  constructor; [|constructor]. apply len_pos_iff. unfold sized in Hs. lia.
Qed.

Lemma tidy_push st line :
  In line lines -> tidy st ->
  tidy (push line st) /\ 0 < size (push line st).
Proof.
  intros Hin (Hs & Hb & Hc).
  assert (0 < len line) by (apply len_pos_iff; auto).
  assert (0 <= size st) by (unfold sized in Hs; rewrite Hs; apply len_nonneg).
  repeat split; simpl; auto using sized_push; lia.
Qed.

Lemma tidy_step st line : In line lines -> tidy st -> tidy (step M st line).
Proof.
  intros Hin Ht. unfold step.
  set (st1 := if flush_before M st line then flush st else st).
  assert (H1 : tidy st1).
  { subst st1. destruct (flush_before M st line) eqn:E; [|exact Ht].
    apply flush_before_true_iff in E. now apply tidy_flush. }
  clearbody st1. destruct (tidy_push st1 line Hin H1) as (H2 & Hpos).
  unfold flush_after. destruct (M <=? _); [now apply tidy_flush | exact H2].
Qed.

Lemma tidy_scan st : tidy st -> tidy (scan M lines st).
Proof. apply scan_invariant. intros; now apply tidy_step. Qed.

Lemma tidy_finish st c : tidy st -> In c (finish st) -> c <> [].
Proof.
  intros (Hs & Hb & Hc) Hin. unfold finish in Hin. unfold sized in Hs.
  rewrite Forall_forall in Hc.
  destruct (buf st) as [|b bs] eqn:E; [now apply Hc|].
  apply in_app_or in Hin as [Hin|[<-|[]]]; [now apply Hc|].
  apply len_pos_iff. rewrite <- Hs. apply Hb. discriminate.
Qed.
End NonEmpty.

(** C10. For a non-empty document and a maximum [M >= 1] no chunk of
    [chunk_text(D, M)] is empty; the empty document yields the single empty
    chunk. *)
Theorem chunk_text_no_empty_chunk (D : pystr) (M : Z) :
  1 <= M ->
  (D <> [] -> forall c, In c (chunk_text D M) -> c <> []) /\
  (D = [] -> chunk_text D M = [[]]).
Proof.
  intro HM. split.
  - intros HD c. unfold chunk_text. destruct (len D <=? M).
    + now intros [<-|[]].
    + apply (tidy_finish _ c).
      apply (tidy_scan M (splitlines D) (splitlines_nonempty D)), tidy_init.
  - intros ->. unfold chunk_text.
    destruct (len [] <=? M) eqn:E; [reflexivity|].
    apply Z.leb_gt in E. unfold len in E. simpl in E. lia.
Qed.

Lemma chunk_text_no_empty_chunk_witness :
  1 <= 5 /\ example_doc <> [] /\
  (forall c, In c (chunk_text example_doc 5) -> c <> []) /\
  chunk_text [] 5 = [[]].
Proof.
  assert (H1 : 1 <= 5) by discriminate.
  assert (HD : example_doc <> []) by discriminate.
  destruct (chunk_text_no_empty_chunk example_doc 5 H1) as [Hne _].
  destruct (chunk_text_no_empty_chunk [] 5 H1) as [_ He].
  exact (conj H1 (conj HD (conj (Hne HD) (He eq_refl)))).
Defined.

(** *** Boundary candidates *)

Lemma lstrip_spaces (ws : pystr) (c : char) (t : pystr) :
  all_space ws -> isspace c = false -> lstrip (ws ++ c :: t) = c :: t.
Proof.
  intros Hws Hc. induction Hws as [|w ws Hw _ IH]; simpl.
  - now rewrite Hc.
  - now rewrite Hw.
Qed.

Lemma lstrip_all_space (ws : pystr) : all_space ws -> lstrip ws = [].
Proof.
  intro Hws. induction Hws as [|w ws Hw _ IH]; simpl; [reflexivity|].
  now rewrite Hw.
Qed.

(** [lstrip] stops at the first character that is not white space. *)
Lemma lstrip_keeps (l : pystr) (c : char) (t : pystr) :
  isspace c = false -> exists l', lstrip (l ++ c :: t) = l' ++ c :: t.
Proof.
  intro Hc. induction l as [|x l IH]; simpl.
  - exists []. now rewrite Hc.
  - destruct (isspace x); [exact IH | now exists (x :: l)].
Qed.

(** [rstrip] keeps everything up to the last character that is not white
    space. *)
Lemma rstrip_keeps (a : pystr) (c : char) (t : pystr) :
  isspace c = false -> exists t', rstrip (a ++ c :: t) = a ++ c :: t'.
Proof.
  intro Hc. unfold rstrip.
  replace (rev (a ++ c :: t)) with (rev t ++ c :: rev a)
    by (rewrite rev_app_distr; simpl; now rewrite <- app_assoc).
  destruct (lstrip_keeps (rev t) c (rev a) Hc) as [l' ->].
  exists (rev l'). rewrite rev_app_distr. simpl.
  now rewrite rev_involutive, <- app_assoc.
Qed.

Lemma rstrip_spaces (a : pystr) (c : char) (ws : pystr) :
  isspace c = false -> all_space ws -> rstrip (a ++ c :: ws) = a ++ [c].
Proof.
  intros Hc Hws. unfold rstrip.
  replace (rev (a ++ c :: ws)) with (rev ws ++ c :: rev a)
    by (rewrite rev_app_distr; simpl; now rewrite <- app_assoc).
  rewrite lstrip_spaces; [| |exact Hc].
  - simpl. now rewrite rev_involutive.
  - unfold all_space in *. rewrite Forall_forall in *.
    intros x Hx. apply Hws. now apply in_rev.
Qed.

Lemma startswith_app (p t : pystr) : startswith (p ++ t) p = true.
Proof.
  induction p as [|a p IH]; simpl; [now destruct t|].
  now rewrite Z.eqb_refl.
Qed.

(** X9. A table row and a heading of level two or three with a title are
    boundary candidates, indented or not; [c] is the first character of the
    title. *)
Theorem rows_and_headings_are_boundaries (ws rest : pystr) (c : char) :
  all_space ws -> isspace c = false ->
  hard_boundary (ws ++ py "|" ++ rest) = true /\
  hard_boundary (ws ++ py "## " ++ c :: rest) = true /\
  hard_boundary (ws ++ py "### " ++ c :: rest) = true.
Proof.
  intros Hws Hc. unfold hard_boundary, strip, startswith_any.
  assert (Hbar : isspace 124 = false) by reflexivity.
  assert (Hhash : isspace 35 = false) by reflexivity.
  split; [|split].
  - change (py "|" ++ rest) with (124 :: rest).
    rewrite lstrip_spaces by assumption.
    destruct (rstrip_keeps [] 124 rest Hbar) as [t' E]. simpl app in E.
    rewrite E. change (124 :: t') with (py "|" ++ t'). cbn [existsb].
    rewrite (startswith_app (py "|") t'). now rewrite !orb_true_r.
  - change (py "## " ++ c :: rest) with (35 :: (py "# " ++ c :: rest)).
    rewrite lstrip_spaces by assumption.
    change (35 :: (py "# " ++ c :: rest)) with (py "## " ++ c :: rest).
    destruct (rstrip_keeps (py "## ") c rest Hc) as [t' ->].
    cbn [existsb]. rewrite (startswith_app (py "## ") (c :: t')). reflexivity.
  - change (py "### " ++ c :: rest) with (35 :: (py "## " ++ c :: rest)).
    rewrite lstrip_spaces by assumption.
    change (35 :: (py "## " ++ c :: rest)) with (py "### " ++ c :: rest).
    destruct (rstrip_keeps (py "### ") c rest Hc) as [t' ->].
    cbn [existsb]. rewrite (startswith_app (py "### ") (c :: t')).
    now rewrite !orb_true_r.
Qed.

Lemma rows_and_headings_are_boundaries_witness :
  all_space (py "  ") /\ isspace 84 = false /\
  hard_boundary (py "  " ++ py "|" ++ py " a | b |") = true /\
  hard_boundary (py "  " ++ py "## " ++ 84 :: py "itle") = true /\
  hard_boundary (py "  " ++ py "### " ++ 84 :: py "itle") = true.
Proof.
  assert (H1 : all_space (py "  ")) by (repeat constructor).
  assert (H2 : isspace 84 = false) by reflexivity.
  exact (conj H1 (conj H2
    (rows_and_headings_are_boundaries (py "  ") _ 84 H1 H2))).
Defined.

(** X10. A heading marker without a title is not a boundary candidate: the white
    space after the marker is stripped before the prefix [## ] or [### ] is
    looked for. *)
Theorem bare_heading_is_no_boundary (ws ws' : pystr) :
  all_space ws -> all_space ws' ->
  hard_boundary (ws ++ py "##" ++ ws') = false /\
  hard_boundary (ws ++ py "###" ++ ws') = false.
Proof.
  intros Hws Hws'. unfold hard_boundary, strip.
  assert (Hhash : isspace 35 = false) by reflexivity.
  split.
  - change (py "##" ++ ws') with (35 :: ([35] ++ ws')).
    rewrite lstrip_spaces by assumption.
    change (35 :: [35] ++ ws') with ([35] ++ 35 :: ws').
    rewrite rstrip_spaces by assumption. reflexivity.
  - change (py "###" ++ ws') with (35 :: ([35; 35] ++ ws')).
    rewrite lstrip_spaces by assumption.
    change (35 :: [35; 35] ++ ws') with ([35; 35] ++ 35 :: ws').
    rewrite rstrip_spaces by assumption. reflexivity.
Qed.

Lemma bare_heading_is_no_boundary_witness :
  all_space [] /\ all_space (py " " ++ [LF]) /\
  hard_boundary ([] ++ py "##" ++ py " " ++ [LF]) = false /\
  hard_boundary ([] ++ py "###" ++ py " " ++ [LF]) = false.
Proof.
  assert (H1 : all_space []) by constructor.
  assert (H2 : all_space (py " " ++ [LF])) by (repeat constructor).
  exact (conj H1 (conj H2 (bare_heading_is_no_boundary [] _ H1 H2))).
Defined.

(** *** Chunks are made of whole lines *)

Lemma grouped_flush done st :
  buf st <> [] -> grouped done st -> grouped done (flush st).
Proof.
  intros Hb (groups & Hc & Hne & Hd).
  exists (groups ++ [buf st]). unfold flush; simpl. repeat split.
  - now rewrite map_app, Hc.
  - apply Forall_app. split; [exact Hne | now constructor].
  - rewrite concat_app. simpl. now rewrite !app_nil_r.
Qed.

Lemma grouped_push done st line :
  grouped done st -> grouped (done ++ [line]) (push line st).
Proof.
  intros (groups & Hc & Hne & Hd).
  exists groups. unfold push; simpl. repeat split; auto.
  now rewrite app_assoc, Hd.
Qed.

Lemma sized_nonempty st : sized st -> 0 < size st -> buf st <> [].
Proof.
  unfold sized. intros Hs Hpos E. rewrite E in Hs. simpl in Hs.
  unfold len in Hs. simpl in Hs. lia.
Qed.

Lemma grouped_step max_chars done st line :
  sized st -> grouped done st ->
  grouped (done ++ [line]) (step max_chars st line).
Proof.
  intros Hs Hg. unfold step.
  set (st1 := if flush_before max_chars st line then flush st else st).
  assert (H1 : grouped done st1).
  { subst st1. destruct (flush_before max_chars st line) eqn:E; [|exact Hg].
    apply flush_before_true_iff in E. apply grouped_flush; [|exact Hg].
    apply sized_nonempty; tauto. }
  clearbody st1. unfold flush_after.
  destruct (max_chars <=? size (push line st1)).
  - apply grouped_flush; [|now apply grouped_push].
    unfold push; simpl. now destruct (buf st1).
  - now apply grouped_push.
Qed.

Lemma grouped_scan max_chars lines :
  forall done st, sized st -> grouped done st ->
    grouped (done ++ lines) (scan max_chars lines st).
Proof.
  unfold scan. induction lines as [|l ls IH]; intros done st Hs Hg; simpl.
  - now rewrite app_nil_r.
  - replace (done ++ l :: ls) with ((done ++ [l]) ++ ls)
      by now rewrite <- app_assoc.
    apply IH; [now apply sized_step | now apply grouped_step].
Qed.

Lemma grouped_init : grouped [] init.
Proof. exists []. repeat split; auto. Qed.

(** X1. The loop never cuts inside a line: when the document is longer than the
    maximum, its lines fall into non-empty groups of consecutive lines and
    the chunks are the concatenations of the groups, in order. *)
Theorem chunk_text_groups_lines (text : pystr) (max_chars : Z) :
  max_chars < len text ->
  exists groups,
    List.concat groups = splitlines text /\
    Forall (fun g => g <> []) groups /\
    chunk_text text max_chars = List.map join groups.
Proof.
  intro Hlong. unfold chunk_text.
  destruct (len text <=? max_chars) eqn:E; [apply Z.leb_le in E; lia|].
  destruct (grouped_scan max_chars (splitlines text) [] init sized_init grouped_init)
    as (groups & Hc & Hne & Hd).
  simpl in Hd. unfold finish.
  destruct (buf (scan max_chars (splitlines text) init)) as [|b bs] eqn:Eb.
  - exists groups. rewrite app_nil_r in Hd. auto.
  - exists (groups ++ [b :: bs]). repeat split.
    + rewrite concat_app. simpl. now rewrite app_nil_r.
    + apply Forall_app. split; [exact Hne | constructor; [discriminate | constructor]].
    + now rewrite map_app, Hc.
Qed.

Lemma chunk_text_groups_lines_witness :
  5 < len example_doc /\
  exists groups,
    List.concat groups = splitlines example_doc /\
    Forall (fun g => g <> []) groups /\
    chunk_text example_doc 5 = List.map join groups.
Proof.
  assert (H : 5 < len example_doc) by reflexivity.
  exact (conj H (chunk_text_groups_lines example_doc 5 H)).
Defined.

(** *** The degenerate maxima *)

(** X2. [chunk_text] returns no chunk at all in one case only: the empty
    document with a negative maximum. *)
Theorem chunk_text_nil_iff (text : pystr) (max_chars : Z) :
  chunk_text text max_chars = [] <-> text = [] /\ max_chars < 0.
Proof.
  split.
  - intro E. pose proof (join_chunk_text text max_chars) as J.
    rewrite E in J. simpl in J. subst text. split; [reflexivity|].
    unfold chunk_text in E. destruct (len [] <=? max_chars) eqn:L;
      [discriminate E|]. apply Z.leb_gt in L. exact L.
  - intros [-> Hneg]. unfold chunk_text.
    destruct (len [] <=? max_chars) eqn:L; [|reflexivity].
    apply Z.leb_le in L. unfold len in L. simpl in L. lia.
Qed.

Lemma scan_nonpositive_max max_chars lines :
  max_chars <= 0 ->
  forall cs, scan max_chars lines (mkState cs [] 0) = mkState (cs ++ lines) [] 0.
Proof.
  intro Hmax. unfold scan.
  induction lines as [|l ls IH]; intro cs; simpl.
  - now rewrite app_nil_r.
  - unfold step at 2, flush_before, flush_after, push, flush. simpl.
    pose proof (len_nonneg l) as Hl.
    destruct (max_chars <=? len l) eqn:E; [|apply Z.leb_gt in E; lia].
    simpl. rewrite app_nil_r, IH. now rewrite <- app_assoc.
Qed.

(** X3. With a maximum that is not positive every line of a non-empty document
    is a chunk of its own. *)
Theorem chunk_text_nonpositive_max (text : pystr) (max_chars : Z) :
  max_chars <= 0 -> text <> [] ->
  chunk_text text max_chars = splitlines text.
Proof.
  intros Hmax Hne. unfold chunk_text.
  apply len_pos_iff in Hne.
  destruct (len text <=? max_chars) eqn:E; [apply Z.leb_le in E; lia|].
  unfold init. rewrite scan_nonpositive_max by exact Hmax. reflexivity.
Qed.

Lemma chunk_text_nonpositive_max_witness :
  0 <= 0 /\ example_doc <> [] /\
  chunk_text example_doc 0 = splitlines example_doc.
Proof.
  assert (H0 : 0 <= 0) by discriminate.
  assert (H1 : example_doc <> []) by discriminate.
  exact (conj H0 (conj H1 (chunk_text_nonpositive_max example_doc 0 H0 H1))).
Defined.

(** *** When the maximum is exceeded *)

Section Overflow.
Variable M : Z.
Variable lines : list pystr.
Hypothesis M_pos : 0 < M.

Local Abbreviation allowed := (overflow_allowed M lines).
Local Abbreviation careful := (carefully_bounded M lines).

Lemma careful_init : careful init.
Proof. repeat split; simpl; auto; lia. Qed.

Lemma careful_flush st : careful st -> careful (flush st).
Proof.
  intros (Hs & Hlt & Hc). repeat split; simpl; try lia.
  apply Forall_app. split; [exact Hc|].
  constructor; [|constructor]. left. unfold sized in Hs. lia.
Qed.

Lemma careful_step st line :
  In line lines -> careful st -> careful (step M st line).
Proof.
  intros Hin Hc. unfold step.
  destruct (flush_before M st line) eqn:E.
  - (* the line starts a fresh buffer *)
    destruct (careful_flush st Hc) as (Hs1 & Hlt1 & Hc1).
    unfold flush_after. destruct (M <=? size (push line (flush st))) eqn:F.
    + repeat split; simpl; try lia.
      apply Forall_app. split; [exact Hc1|].
      constructor; [|constructor]. right. left.
      now rewrite app_nil_r.
    + apply Z.leb_gt in F. repeat split; auto using sized_push.
  - (* the line joins the pending buffer *)
    destruct Hc as (Hs & Hlt & Hc).
    unfold flush_after. destruct (M <=? size (push line st)) eqn:F.
    + repeat split; simpl; try lia.
      apply Forall_app. split; [exact Hc|].
      constructor; [|constructor].
      rewrite join_app, join_single. unfold sized in Hs.
      destruct (Z.eq_dec (size st) 0) as [Z0|Z0].
      * right. left. rewrite Z0 in Hs. symmetry in Hs.
        apply len_nil_iff in Hs. now rewrite Hs.
      * assert (Hpos : 0 < size st)
          by (pose proof (len_nonneg (join (buf st))); lia).
        destruct (Z_le_gt_dec (size st + len line) M) as [Hfit|Hover].
        -- left. rewrite len_app. lia.
        -- right. right. exists (join (buf st)), line.
           repeat split; auto; try lia.
           destruct (hard_boundary line) eqn:Hb; [|reflexivity].
           assert (G : flush_before M st line = true)
             by (apply flush_before_true_iff; repeat split; auto; lia).
           congruence.
    + apply Z.leb_gt in F. repeat split; auto using sized_push.
Qed.

Lemma careful_scan st : careful st -> careful (scan M lines st).
Proof. apply scan_invariant. intros; now apply careful_step. Qed.

Lemma careful_finish st c : careful st -> In c (finish st) -> allowed c.
Proof.
  intros (Hs & Hlt & Hc) Hin. unfold finish in Hin. unfold sized in Hs.
  rewrite Forall_forall in Hc.
  destruct (buf st) as [|b bs] eqn:E; [now apply Hc|].
  apply in_app_or in Hin as [Hin|[<-|[]]]; [now apply Hc|].
  left. lia.
Qed.
End Overflow.

Lemma overflow_allowed_chunk_text (D : pystr) (M : Z) :
  0 < M -> forall c, In c (chunk_text D M) -> overflow_allowed M (splitlines D) c.
Proof.
  intros HM c. unfold chunk_text. destruct (len D <=? M) eqn:E.
  - intros [<-|[]]. left. now apply Z.leb_le.
  - intro Hin.
    apply (careful_finish M (splitlines D) (scan M (splitlines D) init) c);
      [|exact Hin].
    apply careful_scan; [exact HM | now apply careful_init].
Qed.

(** X4. For a positive maximum [M], a chunk longer than [M] is one line of the
    document on its own, or a buffer shorter than [M] followed by a line
    that is not a boundary candidate: a boundary candidate that does not fit
    is never appended to a pending buffer. *)
Theorem chunk_text_overflow (D : pystr) (M : Z) :
  0 < M ->
  forall c, In c (chunk_text D M) ->
    len c <= M \/
    In c (splitlines D) \/
    exists pre l, c = pre ++ l /\ In l (splitlines D) /\ 0 < len pre < M /\
                  hard_boundary l = false.
Proof. apply overflow_allowed_chunk_text. Qed.

Lemma chunk_text_overflow_witness :
  0 < 5 /\ In example_chunk (chunk_text example_doc 5) /\
  (len example_chunk <= 5 \/
   In example_chunk (splitlines example_doc) \/
   exists pre l, example_chunk = pre ++ l /\ In l (splitlines example_doc) /\
                 0 < len pre < 5 /\ hard_boundary l = false).
Proof.
  assert (H0 : 0 < 5) by reflexivity.
  assert (Hin : In example_chunk (chunk_text example_doc 5))
    by (vm_compute; tauto).
  exact (conj H0 (conj Hin
          (chunk_text_overflow example_doc 5 H0 example_chunk Hin))).
Defined.

(** X5. A document made of boundary candidates only, none longer than the
    maximum, is cut into chunks that all respect the maximum: a Markdown
    table whose rows fit is never cut above the maximum. *)
Theorem chunk_text_hard_bound (D : pystr) (M : Z) :
  0 < M ->
  (forall l, In l (splitlines D) -> hard_boundary l = true /\ len l <= M) ->
  forall c, In c (chunk_text D M) -> len c <= M.
Proof.
  intros HM Hlines c Hin.
  destruct (overflow_allowed_chunk_text D M HM c Hin)
    as [H|[H|(pre & l & _ & Hl & _ & Hb)]].
  - exact H.
  - now apply Hlines.
  - destruct (Hlines l Hl) as [Hb' _]. congruence.
Qed.

Lemma chunk_text_hard_bound_witness :
  0 < 4 /\
  (forall l, In l (splitlines table_doc) -> hard_boundary l = true /\ len l <= 4) /\
  (forall c, In c (chunk_text table_doc 4) -> len c <= 4).
Proof.
  assert (H0 : 0 < 4) by reflexivity.
  assert (H1 : forall l, In l (splitlines table_doc) ->
                         hard_boundary l = true /\ len l <= 4).
  { intros l Hl. vm_compute in Hl.
    destruct Hl as [<-|[<-|[<-|[]]]]; split; vm_compute; try reflexivity;
      discriminate. }
  exact (conj H0 (conj H1 (chunk_text_hard_bound table_doc 4 H0 H1))).
Defined.

(** *** Where the cuts fall *)

Lemma neighbours_snoc {A} (R : A -> A -> Prop) (l : list A) (y : A) :
  neighbours R l ->
  (forall older c, l = older ++ [c] -> R c y) ->
  neighbours R (l ++ [y]).
Proof.
  intros Hl Hlast pre a b post E.
  destruct (exists_last (l := b :: post)) as (front & z & Ez); [discriminate|].
  destruct front as [|f front].
  - (* [b] is the last element *)
    simpl in Ez. injection Ez as -> ->.
    change (pre ++ [a; z]) with (pre ++ [a] ++ [z]) in E.
    rewrite app_assoc in E. apply app_inj_tail in E as [E ->].
    now apply (Hlast pre a).
  - simpl in Ez. injection Ez as -> Ez. subst post.
    change (pre ++ a :: f :: front ++ [z])
      with (pre ++ (a :: f :: front) ++ [z]) in E.
    rewrite app_assoc in E. apply app_inj_tail in E as [E _].
    now apply (Hl pre a f front).
Qed.

Lemma neighbours_nil {A} (R : A -> A -> Prop) : neighbours R [].
Proof. intros pre x y post E. now destruct pre. Qed.

Lemma neighbours_single {A} (R : A -> A -> Prop) (x : A) : neighbours R [x].
Proof.
  intros pre a b post E. destruct pre as [|p [|q pre]]; discriminate E.
Qed.

Section Preference.
Variable M : Z.
Variable lines : list pystr.

Local Abbreviation justified := (cut_justified M lines).
Local Abbreviation newest := (newest_justified M lines).
Local Abbreviation prefers := (preferring M lines).

(** Flushing keeps every cut justified: the newest chunk was waiting for
    the head of the buffer. *)
Lemma neighbours_flush st :
  newest st -> neighbours justified (chunks st) ->
  neighbours justified (chunks (flush st)).
Proof.
  intros Hn Hc. unfold flush; simpl. apply neighbours_snoc; [exact Hc|].
  intros older c E. destruct (Hn older c E) as [H|(l & rest & Eb & Hl & Hb & Hlt)].
  - now left.
  - right. exists l, (join rest). rewrite Eb. repeat split; auto.
Qed.

Lemma newest_flush_full st : sized st -> M <= size st -> newest (flush st).
Proof.
  intros Hs Hfull older c E. unfold flush in E; simpl in E.
  apply app_inj_tail in E as [_ <-]. left. unfold sized in Hs. lia.
Qed.

Lemma newest_push_fresh st line :
  sized st -> In line lines -> hard_boundary line = true ->
  M < size st + len line -> newest (push line (flush st)).
Proof.
  intros Hs Hin Hb Hover older c E. unfold push, flush in *; simpl in *.
  apply app_inj_tail in E as [_ <-]. right.
  exists line, []. unfold sized in Hs. repeat split; auto. lia.
Qed.

Lemma newest_push st line : newest st -> newest (push line st).
Proof.
  intros Hn older c E. unfold push in *; simpl in *.
  destruct (Hn older c E) as [H|(l & rest & Eb & Hl & Hb & Hlt)].
  - now left.
  - right. exists l, (rest ++ [line]). rewrite Eb. repeat split; auto.
Qed.

Lemma prefers_flush_after st :
  prefers st -> prefers (flush_after M st).
Proof.
  intros (Hs & Hc & Hn). unfold flush_after.
  destruct (M <=? size st) eqn:F; [|split; [|split]; assumption].
  apply Z.leb_le in F. split; [|split].
  - apply sized_flush.
  - now apply neighbours_flush.
  - now apply newest_flush_full.
Qed.

Lemma prefers_step st line :
  In line lines -> prefers st -> prefers (step M st line).
Proof.
  intros Hin (Hs & Hc & Hn). unfold step.
  apply prefers_flush_after.
  destruct (flush_before M st line) eqn:E.
  - apply flush_before_true_iff in E as (Hpos & Hover & Hb).
    split; [|split].
    + apply sized_push, sized_flush.
    + now apply neighbours_flush.
    + now apply newest_push_fresh.
  - split; [|split]; auto using sized_push, newest_push.
Qed.

Lemma prefers_init : prefers init.
Proof.
  split; [reflexivity|split]; simpl.
  - apply neighbours_nil.
  - intros older c E. now destruct older.
Qed.

Lemma prefers_scan st : prefers st -> prefers (scan M lines st).
Proof. apply scan_invariant. intros; now apply prefers_step. Qed.

Lemma prefers_finish st : prefers st -> neighbours justified (finish st).
Proof.
  intros (Hs & Hc & Hn). unfold finish.
  destruct (buf st) as [|b bs] eqn:E; [exact Hc|].
  rewrite <- E. now apply (neighbours_flush st).
Qed.
End Preference.

Lemma neighbours_chunk_text (D : pystr) (M : Z) :
  neighbours (cut_justified M (splitlines D)) (chunk_text D M).
Proof.
  unfold chunk_text. destruct (len D <=? M).
  - apply neighbours_single.
  - apply prefers_finish, prefers_scan, prefers_init.
Qed.

(** X6. A chunk that is followed by another one ends for a reason: it has
    reached the maximum, or the next chunk starts with a boundary candidate
    that would have taken it above the maximum. *)
Theorem chunk_text_cut_justified (D : pystr) (M : Z)
    (pre : list pystr) (c next : pystr) (post : list pystr) :
  chunk_text D M = pre ++ c :: next :: post ->
  M <= len c \/
  exists l rest, next = l ++ rest /\ In l (splitlines D) /\
                 hard_boundary l = true /\ M < len c + len l.
Proof. intro E. exact (neighbours_chunk_text D M pre c next post E). Qed.

Lemma chunk_text_cut_justified_witness :
  chunk_text example_doc 5
    = [] ++ (py "ab" ++ [LF]) :: example_chunk :: [py "ij"] /\
  (5 <= len (py "ab" ++ [LF]) \/
   exists l rest, example_chunk = l ++ rest /\ In l (splitlines example_doc) /\
                  hard_boundary l = true /\ 5 < len (py "ab" ++ [LF]) + len l).
Proof.
  assert (E : chunk_text example_doc 5
              = [] ++ (py "ab" ++ [LF]) :: example_chunk :: [py "ij"])
    by reflexivity.
  exact (conj E (chunk_text_cut_justified example_doc 5 [] _ _ _ E)).
Defined.

(** X7. Without any boundary candidate the cuts are hard: every chunk but the
    last has reached the maximum. *)
Theorem chunk_text_hard_cuts (D : pystr) (M : Z)
    (pre : list pystr) (c : pystr) (post : list pystr) :
  (forall l, In l (splitlines D) -> hard_boundary l = false) ->
  chunk_text D M = pre ++ c :: post -> post <> [] ->
  M <= len c.
Proof.
  intros Hnone E Hpost. destruct post as [|next post]; [congruence|].
  destruct (neighbours_chunk_text D M pre c next post E)
    as [H|(l & rest & _ & Hl & Hb & _)]; [exact H|].
  rewrite (Hnone l Hl) in Hb. discriminate Hb.
Qed.

Lemma chunks_of_nonempty_text (D : pystr) (M : Z) :
  D <> [] -> forall c, In c (chunk_text D M) -> c <> [].
Proof.
  intros HD c. unfold chunk_text. destruct (len D <=? M).
  - now intros [<-|[]].
  - apply (tidy_finish _ c).
    apply (tidy_scan M (splitlines D) (splitlines_nonempty D)), tidy_init.
Qed.

(** X8. The cuts are never wasteful: two neighbouring chunks are together
    longer than the maximum, so that they could not have been one chunk. *)
Theorem chunk_text_neighbours_do_not_fit (D : pystr) (M : Z)
    (pre : list pystr) (c next : pystr) (post : list pystr) :
  chunk_text D M = pre ++ c :: next :: post ->
  M < len c + len next.
Proof.
  intro E.
  assert (HD : D <> []).
  { intros ->. unfold chunk_text in E.
    destruct (len [] <=? M); [|destruct pre; discriminate E].
    destruct pre as [|p [|q pre]]; discriminate E. }
  assert (Hnext : 0 < len next).
  { apply len_pos_iff, (chunks_of_nonempty_text D M HD).
    rewrite E. apply in_or_app. right. right. now left. }
  destruct (neighbours_chunk_text D M pre c next post E)
    as [H|(l & rest & -> & _ & _ & Hlt)].
  - lia.
  - rewrite len_app. pose proof (len_nonneg rest). lia.
Qed.

Lemma chunk_text_neighbours_do_not_fit_witness :
  chunk_text example_doc 5
    = [] ++ (py "ab" ++ [LF]) :: example_chunk :: [py "ij"] /\
  5 < len (py "ab" ++ [LF]) + len example_chunk.
Proof.
  assert (E : chunk_text example_doc 5
              = [] ++ (py "ab" ++ [LF]) :: example_chunk :: [py "ij"])
    by reflexivity.
  exact (conj E (chunk_text_neighbours_do_not_fit example_doc 5 [] _ _ _ E)).
Defined.

Lemma chunk_text_hard_cuts_witness :
  (forall l, In l (splitlines prose_doc) -> hard_boundary l = false) /\
  chunk_text prose_doc 5
    = [] ++ (py "ab" ++ [LF] ++ py "cd" ++ [LF]) :: [py "ef"] /\
  [py "ef"] <> [] /\
  5 <= len (py "ab" ++ [LF] ++ py "cd" ++ [LF]).
Proof.
  assert (H1 : forall l, In l (splitlines prose_doc) -> hard_boundary l = false).
  { intros l Hl. vm_compute in Hl.
    destruct Hl as [<-|[<-|[<-|[]]]]; reflexivity. }
  assert (H2 : chunk_text prose_doc 5
               = [] ++ (py "ab" ++ [LF] ++ py "cd" ++ [LF]) :: [py "ef"])
    by reflexivity.
  assert (H3 : [py "ef"] <> []) by discriminate.
  exact (conj H1 (conj H2 (conj H3
    (chunk_text_hard_cuts prose_doc 5 [] _ _ H1 H2 H3)))).
Defined.

End ChunkerFacts.

(* ================================================================= *)
(** ** Properties of the classifier *)

Module ClassifierFacts.
Import Pathlib Classifier.

Lemma startswith_iff (p s : pystr) :
  startswith s p = true <-> exists post, s = p ++ post.
Proof.
  revert s. induction p as [|a p IH]; intro s; simpl.
  - split; [intros _; now exists s | intros _; now destruct s].
  - destruct s as [|c s].
    + split; [discriminate | intros [post E]; discriminate E].
    + simpl. rewrite andb_true_iff, Z.eqb_eq, IH. split.
      * intros [-> [post ->]]. now exists post.
      * intros [post E]. injection E as -> ->. split; [reflexivity | now exists post].
Qed.

Lemma contains_nil (sub : pystr) : contains sub [] = startswith [] sub.
Proof. simpl. apply orb_false_r. Qed.

Lemma contains_cons (sub : pystr) (c : char) (s : pystr) :
  contains sub (c :: s) = startswith (c :: s) sub || contains sub s.
Proof. reflexivity. Qed.

(** The substring test finds exactly the occurrences. *)
Lemma contains_iff (sub s : pystr) :
  contains sub s = true <-> occurs_in sub s.
Proof.
  unfold occurs_in. induction s as [|c s IH].
  - rewrite contains_nil, startswith_iff. split.
    + intros [post E]. exists [], post. exact E.
    + intros (pre & post & E). destruct pre; [now exists post | discriminate E].
  - rewrite contains_cons, orb_true_iff, startswith_iff, IH. split.
    + intros [[post E] | (pre & post & E)].
      * exists [], post. exact E.
      * exists (c :: pre), post. simpl. now rewrite E.
    + intros (pre & post & E). destruct pre as [|x pre]; simpl in E.
      * left. now exists post.
      * right. injection E as _ E. now exists pre, post.
Qed.

Lemma contains_false_iff (sub s : pystr) :
  contains sub s = false <-> ~ occurs_in sub s.
Proof.
  rewrite <- contains_iff. destruct (contains sub s); split; intro H;
    try reflexivity; try discriminate; try congruence.
Qed.

(** A name is its stem followed by its suffix. *)
Lemma name_stem_suffix (p : Path) : name p = stem p ++ suffix p.
Proof.
  unfold stem, suffix. destruct ((0 <? _) && _).
  - symmetry. apply firstn_skipn.
  - now rewrite app_nil_r.
Qed.

Lemma startswith_nil (s : pystr) : startswith s [] = true.
Proof. now destruct s. Qed.

Lemma startswith_cons (c : char) (s : pystr) (a : char) (p : pystr) :
  startswith (c :: s) (a :: p) = (a =? c) && startswith s p.
Proof. reflexivity. Qed.

(** A two-character keyword outside ASCII is not found in, or across the
    border of, an ASCII extension. *)
Lemma contains_before_ascii (a b : char) (suf : pystr) :
  ~ 0 <= a < 128 -> ~ 0 <= b < 128 -> is_ascii suf ->
  forall st, contains [a; b] (st ++ suf) = contains [a; b] st.
Proof.
  intros Ha Hb Hsuf.
  assert (Hne : forall k x, In x suf -> ~ 0 <= k < 128 -> (k =? x) = false).
  { intros k x Hin Hk. unfold is_ascii in Hsuf. rewrite Forall_forall in Hsuf.
    specialize (Hsuf x Hin). destruct (Z.eqb_spec k x); [subst; tauto | reflexivity]. }
  assert (Hnone : contains [a; b] suf = false).
  { clear Hsuf. induction suf as [|x l IH]; [reflexivity|].
    rewrite contains_cons, startswith_cons, IH.
    - rewrite (Hne a x); [reflexivity | now left | exact Ha].
    - intros k y Hin. apply Hne. now right. }
  assert (Hborder : forall st, startswith (st ++ suf) [b] = startswith st [b]).
  { intros [|y st]; simpl app.
    - destruct suf as [|y suf]; [reflexivity|].
      rewrite startswith_cons, (Hne b y); [reflexivity | now left | exact Hb].
    - now rewrite !startswith_cons, !startswith_nil. }
  induction st as [|x st IH].
  - simpl app. rewrite Hnone. reflexivity.
  - rewrite <- app_comm_cons, !contains_cons, IH, !startswith_cons, Hborder.
    reflexivity.
Qed.

Lemma test_keyword_reflect lower path :
  has_test_keyword lower path <->
  contains kw_kanten (name path) || contains kw_view (lower (stem path))
  || contains kw_test (lower (stem path)) = true.
Proof.
  unfold has_test_keyword. rewrite !orb_true_iff, !contains_iff. tauto.
Qed.

Lemma design_keyword_reflect lower path :
  has_design_keyword lower path <->
  contains kw_sekkei (name path) || contains kw_design (lower (stem path))
  || contains kw_shiyou (name path) = true.
Proof.
  unfold has_design_keyword. rewrite !orb_true_iff, !contains_iff. tauto.
Qed.

(** C6, as documented, fails: the file [a.] U+89B3 U+70B9 has the stem [a],
    which holds no keyword, and is classified [test_viewpoints] because the
    script looks for the Japanese keywords in the whole file name. *)
Lemma keyword_in_suffix_is_matched :
  stem keyword_in_suffix = py "a" /\
  infer_doc_type ascii_lower keyword_in_suffix = test_viewpoints /\
  classify_on_stem ascii_lower keyword_in_suffix = unknown /\
  ~ classifier_as_documented ascii_lower.
Proof.
  repeat split; try reflexivity.
  intro H. specialize (H keyword_in_suffix). vm_compute in H. discriminate H.
Qed.

(** C6, amended. [infer_doc_type] returns one of the three labels for every
    path.  It returns [test_viewpoints] when the file name holds a test or
    viewpoint keyword, whatever else it holds; [design_spec] when it holds
    a design or specification keyword and no test or viewpoint keyword;
    [unknown] otherwise.  The keywords [view], [test] and [design] are
    looked for in the lower-cased stem; the three Japanese keywords in the
    whole file name, which comes to the stem when the extension is ASCII. *)
Theorem infer_doc_type_decision (lower : pystr -> pystr) (path : Path) :
  (infer_doc_type lower path = test_viewpoints \/
   infer_doc_type lower path = design_spec \/
   infer_doc_type lower path = unknown) /\
  (has_test_keyword lower path ->
   infer_doc_type lower path = test_viewpoints) /\
  (~ has_test_keyword lower path -> has_design_keyword lower path ->
   infer_doc_type lower path = design_spec) /\
  (~ has_test_keyword lower path -> ~ has_design_keyword lower path ->
   infer_doc_type lower path = unknown) /\
  (is_ascii (suffix path) ->
   forall kw, In kw [kw_kanten; kw_sekkei; kw_shiyou] ->
     (occurs_in kw (name path) <-> occurs_in kw (stem path))) /\
  (lowers_ascii lower -> is_ascii (stem path) ->
   lower (stem path) = ascii_lower (stem path)).
Proof.
  pose proof (test_keyword_reflect lower path) as HT.
  pose proof (design_keyword_reflect lower path) as HD.
  unfold infer_doc_type.
  destruct (contains kw_kanten (name path) || contains kw_view (lower (stem path))
            || contains kw_test (lower (stem path))) eqn:ET;
  destruct (contains kw_sekkei (name path) || contains kw_design (lower (stem path))
            || contains kw_shiyou (name path)) eqn:ED;
  (split; [tauto|]);
  (split; [intros; try reflexivity; exfalso; apply HT in H; discriminate H |]);
  (split; [intros Hn Hd; try reflexivity; exfalso;
           try (apply Hn, HT; reflexivity); apply HD in Hd; discriminate Hd |]);
  (split; [intros Hn Hd; try reflexivity; exfalso;
           try (apply Hn, HT; reflexivity); apply Hd, HD; reflexivity |]).
  all: split; [| intros Hl Ha; now apply Hl].
  all: intros Hsuf kw Hkw; rewrite <- !contains_iff, name_stem_suffix.
  all: destruct Hkw as [<-|[<-|[<-|[]]]];
       unfold kw_kanten, kw_sekkei, kw_shiyou;
       (rewrite contains_before_ascii; [reflexivity | | | exact Hsuf]);
       intros [_ Hlt]; vm_compute in Hlt; discriminate Hlt.
Qed.

Lemma is_ascii_reflect (s : pystr) : is_asciib s = true -> is_ascii s.
Proof.
  unfold is_asciib, is_ascii. rewrite forallb_forall, Forall_forall.
  intros H c Hc. specialize (H c Hc).
  apply andb_true_iff in H. rewrite Z.leb_le, Z.ltb_lt in H. exact H.
Qed.

Lemma lowers_ascii_ascii_lower : lowers_ascii ascii_lower.
Proof. intros s _. reflexivity. Qed.

Lemma infer_doc_type_decision_witness :
  (has_test_keyword ascii_lower both_keywords /\
   has_design_keyword ascii_lower both_keywords /\
   infer_doc_type ascii_lower both_keywords = test_viewpoints) /\
  (~ has_test_keyword ascii_lower design_only /\
   has_design_keyword ascii_lower design_only /\
   infer_doc_type ascii_lower design_only = design_spec) /\
  (~ has_test_keyword ascii_lower no_keyword /\
   ~ has_design_keyword ascii_lower no_keyword /\
   infer_doc_type ascii_lower no_keyword = unknown) /\
  (is_ascii (suffix design_only) /\
   (occurs_in kw_sekkei (name design_only) <->
    occurs_in kw_sekkei (stem design_only))) /\
  (lowers_ascii ascii_lower /\ is_ascii (stem both_keywords) /\
   ascii_lower (stem both_keywords) = ascii_lower (stem both_keywords)).
Proof.
  assert (T1 : has_test_keyword ascii_lower both_keywords)
    by (apply test_keyword_reflect; reflexivity).
  assert (D1 : has_design_keyword ascii_lower both_keywords)
    by (apply design_keyword_reflect; reflexivity).
  assert (T2 : ~ has_test_keyword ascii_lower design_only)
    by (rewrite test_keyword_reflect; vm_compute; discriminate).
  assert (D2 : has_design_keyword ascii_lower design_only)
    by (apply design_keyword_reflect; reflexivity).
  assert (T3 : ~ has_test_keyword ascii_lower no_keyword)
    by (rewrite test_keyword_reflect; vm_compute; discriminate).
  assert (D3 : ~ has_design_keyword ascii_lower no_keyword)
    by (rewrite design_keyword_reflect; vm_compute; discriminate).
  assert (A2 : is_ascii (suffix design_only))
    by (apply is_ascii_reflect; reflexivity).
  assert (A1 : is_ascii (stem both_keywords))
    by (apply is_ascii_reflect; reflexivity).
  destruct (infer_doc_type_decision ascii_lower both_keywords)
    as (_ & R1 & _ & _ & _ & L1).
  destruct (infer_doc_type_decision ascii_lower design_only)
    as (_ & _ & R2 & _ & S2 & _).
  destruct (infer_doc_type_decision ascii_lower no_keyword)
    as (_ & _ & _ & R3 & _ & _).
  repeat split; auto using lowers_ascii_ascii_lower.
  - apply (S2 A2 kw_sekkei). simpl. tauto.
  - apply (S2 A2 kw_sekkei). simpl. tauto.
Defined.

(** *** Case of the letters *)

Lemma is_ascii_firstn (n : nat) (s : pystr) : is_ascii s -> is_ascii (firstn n s).
Proof.
  unfold is_ascii. rewrite !Forall_forall. intros H c Hc. apply H. clear H.
  revert s Hc. induction n as [|n IH]; intros [|a s]; simpl; try tauto.
  intros [->|Hc]; [now left | right; now apply IH].
Qed.

Lemma is_ascii_stem (p : Path) : is_ascii (name p) -> is_ascii (stem p).
Proof.
  intro H. unfold stem. destruct ((0 <? _) && _); [|exact H].
  now apply is_ascii_firstn.
Qed.

Lemma ascii_lower_char_ascii (c : char) :
  0 <= c < 128 -> 0 <= ascii_lower_char c < 128.
Proof.
  intro H. unfold ascii_lower_char.
  destruct ((65 <=? c) && (c <=? 90)) eqn:E; [|exact H].
  apply andb_true_iff in E. rewrite !Z.leb_le in E. lia.
Qed.

Lemma is_ascii_ascii_lower (s : pystr) : is_ascii s -> is_ascii (ascii_lower s).
Proof.
  unfold is_ascii, ascii_lower. intro H. apply Forall_map.
  revert H. apply Forall_impl. intro c. apply ascii_lower_char_ascii.
Qed.

Lemma ascii_lower_char_idempotent (c : char) :
  ascii_lower_char (ascii_lower_char c) = ascii_lower_char c.
Proof.
  unfold ascii_lower_char.
  destruct ((65 <=? c) && (c <=? 90)) eqn:E; [|now rewrite E].
  apply andb_true_iff in E. rewrite !Z.leb_le in E.
  destruct ((65 <=? c + 32) && (c + 32 <=? 90)) eqn:F; [|reflexivity].
  apply andb_true_iff in F. rewrite !Z.leb_le in F. lia.
Qed.

Lemma ascii_lower_idempotent (s : pystr) :
  ascii_lower (ascii_lower s) = ascii_lower s.
Proof.
  unfold ascii_lower. rewrite map_map. apply map_ext.
  apply ascii_lower_char_idempotent.
Qed.

Lemma ascii_lower_char_dot (c : char) :
  (ascii_lower_char c =? dot) = (c =? dot).
Proof.
  unfold ascii_lower_char, dot.
  destruct ((65 <=? c) && (c <=? 90)) eqn:E; [|reflexivity].
  apply andb_true_iff in E. rewrite !Z.leb_le in E.
  destruct (Z.eqb_spec (c + 32) 46), (Z.eqb_spec c 46); try reflexivity; lia.
Qed.

Lemma rfind_from_ascii_lower (s : pystr) :
  forall i best,
    rfind_from dot (ascii_lower s) i best = rfind_from dot s i best.
Proof.
  induction s as [|c s IH]; intros i best; simpl; [reflexivity|].
  now rewrite IH, ascii_lower_char_dot.
Qed.

(** The stem of the lower-cased name is the lower-cased stem. *)
Lemma stem_ascii_lower (p : Path) :
  stem (mkPath (ascii_lower (name p))) = ascii_lower (stem p).
Proof.
  unfold stem, rfind; cbn [name].
  rewrite rfind_from_ascii_lower.
  replace (len (ascii_lower (name p))) with (len (name p))
    by (unfold len, ascii_lower; now rewrite length_map).
  destruct ((0 <? _) && _); [|reflexivity].
  unfold ascii_lower. now rewrite firstn_map.
Qed.

(** No keyword that starts outside ASCII occurs in an ASCII text. *)
Lemma contains_in_ascii (a : char) (k s : pystr) :
  ~ 0 <= a < 128 -> is_ascii s -> contains (a :: k) s = false.
Proof.
  intros Ha Hs. induction Hs as [|c s Hc _ IH]; [reflexivity|].
  rewrite contains_cons, startswith_cons, IH.
  destruct (Z.eqb_spec a c); [subst; tauto | reflexivity].
Qed.

Lemma infer_doc_type_ascii (lower : pystr -> pystr) (p : Path) :
  lowers_ascii lower -> is_ascii (name p) ->
  infer_doc_type lower p =
  if contains kw_view (ascii_lower (stem p))
     || contains kw_test (ascii_lower (stem p))
  then test_viewpoints
  else if contains kw_design (ascii_lower (stem p))
  then design_spec else unknown.
Proof.
  intros Hl Ha. unfold infer_doc_type.
  rewrite (Hl (stem p) (is_ascii_stem p Ha)).
  unfold kw_kanten, kw_sekkei, kw_shiyou.
  rewrite !contains_in_ascii; try exact Ha;
    try (intros [_ Hlt]; vm_compute in Hlt; discriminate Hlt).
  cbn [orb]. now rewrite orb_false_r.
Qed.

(** X11. Capital letters do not matter: a file name of ASCII characters is
    classified like the same name in lower case. *)
Theorem infer_doc_type_ignores_case (lower : pystr -> pystr) (path : Path) :
  lowers_ascii lower -> is_ascii (name path) ->
  infer_doc_type lower (mkPath (ascii_lower (name path)))
  = infer_doc_type lower path.
Proof.
  intros Hl Ha.
  rewrite (infer_doc_type_ascii lower path Hl Ha).
  rewrite (infer_doc_type_ascii lower _ Hl); cbn [name];
    [|now apply is_ascii_ascii_lower].
  now rewrite stem_ascii_lower, ascii_lower_idempotent.
Qed.

Lemma infer_doc_type_ignores_case_witness :
  lowers_ascii ascii_lower /\ is_ascii (name both_keywords) /\
  infer_doc_type ascii_lower (mkPath (ascii_lower (name both_keywords)))
  = infer_doc_type ascii_lower both_keywords.
Proof.
  assert (H1 : is_ascii (name both_keywords))
    by (apply is_ascii_reflect; reflexivity).
  exact (conj lowers_ascii_ascii_lower (conj H1
    (infer_doc_type_ignores_case ascii_lower both_keywords
       lowers_ascii_ascii_lower H1))).
Defined.

End ClassifierFacts.

(* ================================================================= *)
(** ** Properties of the normalizer *)

Module NormalizerFacts.
Import Normalizer.

Lemma in_firstn {A} (n : nat) (l : list A) (x : A) :
  In x (firstn n l) -> In x l.
Proof.
  revert l. induction n as [|n IH]; intros [|a l]; simpl; try tauto.
  intros [->|H]; [now left | right; now apply IH].
Qed.

Lemma ffill_from_notnull (vs : list cell) :
  forallb notnull vs = true -> forall last, ffill_from last vs = vs.
Proof.
  induction vs as [|v vs IH]; simpl; intros H last; [reflexivity|].
  apply andb_true_iff in H as [Hv Hvs]. rewrite Hv. now rewrite IH.
Qed.

(** Where a column holds a cell that is not null, [ffill] leaves it. *)
Lemma ffill_from_keeps (vs : list cell) :
  forall last j c,
    nth_error vs j = Some c -> notnull c = true ->
    nth_error (ffill_from last vs) j = Some c.
Proof.
  induction vs as [|v vs IH]; intros last [|j] c Hc Hn; simpl in *;
    try discriminate.
  - injection Hc as ->. now rewrite Hn.
  - destruct (notnull v); simpl; now apply IH.
Qed.

Lemma where_notnull_not_date (s : Series) :
  dt s <> Datetime64 ->
  where_notnull s =
  mkSeries (if forallb notnull (values s) then dt s else Object)
           (List.map (fun c => if notnull c then c else Str []) (values s)).
Proof. unfold where_notnull. now destruct (dt s). Qed.

(** Outside the date columns the cleaning is the replacement of the null
    cells. *)
Lemma clean_not_date (s : Series) :
  dt s <> Datetime64 -> clean s = where_notnull s.
Proof.
  intro H. unfold clean, is_datetime64_any_dtype.
  rewrite (where_notnull_not_date s H). cbn [dt].
  destruct (forallb notnull (values s)); [|reflexivity].
  now destruct (dt s).
Qed.

Lemma clean_notnull (s : Series) :
  dt s <> Datetime64 -> forallb notnull (values (clean s)) = true.
Proof.
  intro H. rewrite (clean_not_date s H), (where_notnull_not_date s H).
  cbn [values]. apply forallb_forall. intros c Hc.
  apply in_map_iff in Hc as (c0 & <- & _). now destruct c0.
Qed.

(** On a column without null cells [ffill] changes nothing. *)
Lemma ffill_notnull (s : Series) :
  forallb notnull (values s) = true -> ffill s = s.
Proof.
  intro H. unfold ffill. rewrite ffill_from_notnull by exact H. now destruct s.
Qed.

(** The columns of the result, one by one. *)
Lemma sanitize_df_column (df : DataFrame) (i : nat) :
  nth_error (columns (sanitize_df df)) i
  = option_map (sanitize_column i) (nth_error (columns df) i).
Proof.
  unfold sanitize_df. cbn [columns]. rewrite map_map. fold clean.
  change (List.map (fun x => clean x) (columns df))
    with (List.map clean (columns df)).
  destruct (columns df) as [|a [|b rest]]; destruct i as [|[|i]];
    try reflexivity.
  cbn. now rewrite nth_error_map.
Qed.

(** The forward fill of [sanitize_df] comes after the null cells have been
    replaced by empty strings: outside the date columns it finds nothing to
    fill. *)
Lemma sanitize_column_not_date (i : nat) (s : Series) :
  dt s <> Datetime64 -> sanitize_column i s = clean s.
Proof.
  intro H. unfold sanitize_column. destruct (i <? 2)%nat; [|reflexivity].
  apply ffill_notnull, clean_notnull, H.
Qed.

Lemma clean_blanked (s : Series) :
  dt s <> Datetime64 -> Forall2 blanked (values s) (values (clean s)).
Proof.
  intro H. rewrite (clean_not_date s H), (where_notnull_not_date s H).
  cbn [values].
  induction (values s) as [|c cs IH]; simpl; constructor; auto.
  destruct c; split; simpl; congruence.
Qed.



(** C7, on the code: the sheet whose third column holds a date above a
    missing cell comes out with the date in ISO form above a null cell.
    The fill value of [where] reads as NaT in a date column, and the null
    that stays is rendered as NaN by [strftime]. *)
Theorem sanitize_df_leaves_null_in_date_column :
  columns (sanitize_df dated_frame) =
    [ mkSeries Object [Str (py "a"); Str (py "b")];
      mkSeries Object [Str (py "x"); Str (py "y")];
      mkSeries Object [Str (py "2024-01-05"); NA] ] /\
  ~ Forall (fun s => Forall (fun c => c <> NA) (values s))
           (columns (sanitize_df dated_frame)).
Proof.
  split; [reflexivity|].
  intro H. rewrite Forall_forall in H.
  specialize (H (mkSeries Object [Str (py "2024-01-05"); NA])).
  assert (Hin : In (mkSeries Object [Str (py "2024-01-05"); NA])
                   (columns (sanitize_df dated_frame)))
    by (right; right; left; reflexivity).
  specialize (H Hin). cbn [values] in H.
  inversion H as [|? ? _ H2]; subst.
  inversion H2 as [|? ? H3 _]; subst. now apply H3.
Qed.

(** C2, on the code: the sheet whose first column is [A] above a missing
    cell comes out with the empty string under [A]; the forward fill of
    the design document puts [A] there. *)
Theorem sanitize_df_leaves_merged_cell_blank :
  columns (sanitize_df merged_cell_frame) =
    [ mkSeries Object [Str (py "A"); Str []];
      mkSeries Object [Str (py "x"); Str (py "y")] ] /\
  ffill_as_documented (Str []) [Str (py "A"); NA]
    = [Str (py "A"); Str (py "A")].
Proof. split; reflexivity. Qed.

(** More generally no missing cell of a column that is not a date column
    is ever filled from above: it holds the empty string in the result. *)
Lemma sanitize_df_fills_nothing (df : DataFrame) (i j : nat) (s s' : Series) :
  nth_error (columns df) i = Some s ->
  dt s <> Datetime64 ->
  nth_error (columns (sanitize_df df)) i = Some s' ->
  nth_error (values s) j = Some NA ->
  nth_error (values s') j = Some (Str []).
Proof.
  intros Hs Hd Hs' Hc.
  rewrite sanitize_df_column, Hs in Hs'. cbn [option_map] in Hs'.
  injection Hs' as <-. rewrite (sanitize_column_not_date i s Hd).
  pose proof (clean_blanked s Hd) as HB.
  revert j Hc. induction HB as [|c c' cs cs' [_ Hb] HB IH]; intros [|j] Hc;
    simpl in *; try discriminate.
  - injection Hc as ->. now rewrite Hb.
  - now apply IH.
Qed.

(** *** What is never touched *)

Lemma clean_keeps_text_and_numbers (s : Series) (j : nat) (c : cell) :
  nth_error (values s) j = Some c -> is_text_or_number c = true ->
  nth_error (values (clean s)) j = Some c.
Proof.
  intros Hc Ht. unfold clean, where_notnull, dt_strftime, is_datetime64_any_dtype.
  destruct (dt s) eqn:Ed; cbn [dt values]; rewrite ?Ed;
    try destruct (forallb notnull (values s)); cbn [values];
    rewrite ?nth_error_map, Hc; destruct c; try discriminate Ht; reflexivity.
Qed.

Lemma sanitize_column_keeps_text_and_numbers
    (i : nat) (s : Series) (j : nat) (c : cell) :
  nth_error (values s) j = Some c -> is_text_or_number c = true ->
  nth_error (values (sanitize_column i s)) j = Some c.
Proof.
  intros Hc Ht. pose proof (clean_keeps_text_and_numbers s j c Hc Ht) as H.
  unfold sanitize_column. destruct (i <? 2)%nat; [|exact H].
  unfold ffill. cbn [values]. apply ffill_from_keeps; [exact H|].
  now destruct c.
Qed.

(** X13. A cell that holds a text or a number comes out of [sanitize_df] as it
    went in, whatever its column. *)
Theorem sanitize_df_keeps_text_and_numbers
    (df : DataFrame) (i j : nat) (s s' : Series) (c : cell) :
  nth_error (columns df) i = Some s ->
  nth_error (columns (sanitize_df df)) i = Some s' ->
  nth_error (values s) j = Some c ->
  is_text_or_number c = true ->
  nth_error (values s') j = Some c.
Proof.
  intros Hs Hs' Hc Ht. rewrite sanitize_df_column, Hs in Hs'.
  cbn [option_map] in Hs'. injection Hs' as <-.
  now apply sanitize_column_keeps_text_and_numbers.
Qed.

Lemma sanitize_df_keeps_text_and_numbers_witness :
  nth_error (columns merged_cell_frame) 0
    = Some (mkSeries Object [Str (py "A"); NA]) /\
  nth_error (columns (sanitize_df merged_cell_frame)) 0
    = Some (mkSeries Object [Str (py "A"); Str []]) /\
  nth_error (values (mkSeries Object [Str (py "A"); NA])) 0
    = Some (Str (py "A")) /\
  is_text_or_number (Str (py "A")) = true /\
  nth_error (values (mkSeries Object [Str (py "A"); Str []])) 0
    = Some (Str (py "A")).
Proof.
  assert (H1 : nth_error (columns merged_cell_frame) 0
               = Some (mkSeries Object [Str (py "A"); NA])) by reflexivity.
  assert (H2 : nth_error (columns (sanitize_df merged_cell_frame)) 0
               = Some (mkSeries Object [Str (py "A"); Str []])) by reflexivity.
  assert (H3 : nth_error (values (mkSeries Object [Str (py "A"); NA])) 0
               = Some (Str (py "A"))) by reflexivity.
  assert (H4 : is_text_or_number (Str (py "A")) = true) by reflexivity.
  exact (conj H1 (conj H2 (conj H3 (conj H4
    (sanitize_df_keeps_text_and_numbers merged_cell_frame 0 0 _ _ _
       H1 H2 H3 H4))))).
Defined.

End NormalizerFacts.

(* ================================================================= *)
(** ** Properties of the digest *)

Module HashlibFacts.
Import Hashlib.

Lemma hex_word_length (w : Z) : List.length (hex_word w) = 8%nat.
Proof. reflexivity. Qed.

(** An MD5 digest in hexadecimal is 32 characters long. *)
Lemma md5_hexdigest_length (msg : bytes) :
  List.length (md5_hexdigest msg) = 32%nat.
Proof.
  unfold md5_hexdigest. destruct (md5_state msg) as [[[a b] c] d].
  now rewrite !length_app, !hex_word_length.
Qed.

(** The digests of the empty string and of [abc] (RFC 1321, appendix A.5). *)
Example md5_empty : md5_hexdigest [] = py "d41d8cd98f00b204e9800998ecf8427e".
Proof. vm_compute. reflexivity. Qed.

Example md5_abc :
  md5_hexdigest (py "abc") = py "900150983cd24fb0d6963f7d28e17f72".
Proof. vm_compute. reflexivity. Qed.

End HashlibFacts.

(* ================================================================= *)
(** ** Properties of the renderer and of the emitter *)

Module PipelineFacts.
Import Pathlib Classifier Normalizer Hashlib Pipeline.

Lemma some_inj {A} (x y : A) : Some x = Some y -> x = y.
Proof. congruence. Qed.

Lemma content_hash_length (chunk h : pystr) :
  content_hash chunk = Some h -> len h = 8.
Proof.
  unfold content_hash. destruct (encode_utf8 chunk) as [data|]; [|discriminate].
  cbn [option_map]. intro E.
  assert (Eh : h = firstn 8 (md5_hexdigest data)) by congruence.
  rewrite Eh. unfold len.
  now rewrite length_firstn, HashlibFacts.md5_hexdigest_length.
Qed.

(** The two-digit format never gives fewer than two characters. *)
Lemma format_02d_length (i : Z) : 2 <= len (format_02d i).
Proof.
  unfold format_02d, zero_pad, len. rewrite length_app, repeat_length.
  change (@Datatypes.length char) with (@Datatypes.length Z). lia.
Qed.

(** C9, as documented, fails: the two documents differ in one table cell,
    each is its own single chunk, and both get the name
    [book__Sheet1__9ca14fa5.md]; written one after the other into an empty
    directory they leave one file, the second. *)
Lemma distinct_documents_share_a_name :
  document_a <> document_b /\
  Chunker.chunk_text document_a MAX_CHARS_PER_CHUNK = [document_a] /\
  Chunker.chunk_text document_b MAX_CHARS_PER_CHUNK = [document_b] /\
  out_name book sheet1 1 1 document_a = Some (py "book__Sheet1__9ca14fa5.md") /\
  out_name book sheet1 1 1 document_b = Some (py "book__Sheet1__9ca14fa5.md") /\
  (exists data_a data_b,
     write_chunks book sheet1 1 1 [document_a] []
       = Written [(py "book__Sheet1__9ca14fa5.md", data_a)] /\
     write_chunks book sheet1 1 1 [document_b]
                  [(py "book__Sheet1__9ca14fa5.md", data_a)]
       = Written [(py "book__Sheet1__9ca14fa5.md", data_b)]) /\
  ~ names_differ_as_documented.
Proof.
  assert (Hne : document_a <> document_b) by (vm_compute; discriminate).
  assert (Ha : out_name book sheet1 1 1 document_a
               = Some (py "book__Sheet1__9ca14fa5.md"))
    by (vm_compute; reflexivity).
  assert (Hb : out_name book sheet1 1 1 document_b
               = Some (py "book__Sheet1__9ca14fa5.md"))
    by (vm_compute; reflexivity).
  repeat split; auto.
  - do 2 eexists. split; vm_compute; reflexivity.
  - intro H. exact (H _ _ _ _ _ _ _ _ Hne Ha Hb eq_refl).
Qed.

(** C9, amended. The name of a file is the stem of the workbook, [__], the
    sheet name, [__part] and the part number on at least two digits when and
    only when the document has more than one chunk, [__], the first eight
    hexadecimal digits of the MD5 digest of the chunk, and [.md].  For one
    base identity and part, two chunks get the same name exactly when those
    eight digits agree. *)
Theorem out_name_shape (path : Path) (sheet : pystr) (nchunks : nat) (i : Z)
    (chunk name : pystr) :
  out_name path sheet nchunks i chunk = Some name ->
  (exists h,
     content_hash chunk = Some h /\ len h = 8 /\
     name = stem path ++ py "__" ++ sheet
            ++ (if (1 <? nchunks)%nat then py "__part" ++ format_02d i else [])
            ++ py "__" ++ h ++ py ".md") /\
  2 <= len (format_02d i) /\
  (forall chunk' name',
     out_name path sheet nchunks i chunk' = Some name' ->
     (name = name' <-> content_hash chunk = content_hash chunk')).
Proof.
  unfold out_name, part_suffix. intro E.
  destruct (content_hash chunk) as [h|] eqn:Eh; [|discriminate E].
  cbn [option_map] in E. apply some_inj in E.
  split; [|split; [apply format_02d_length|]].
  - exists h. split; [reflexivity|].
    split; [apply (content_hash_length chunk); exact Eh|].
    rewrite <- E. now rewrite <- !app_assoc.
  - intros chunk' name' E'.
    destruct (content_hash chunk') as [h'|] eqn:Eh'; [|discriminate E'].
    cbn [option_map] in E'. apply some_inj in E'.
    rewrite <- E, <- E'. split.
    + intro H. apply app_inv_head in H. apply app_inv_head in H.
      apply app_inv_tail in H. now rewrite H.
    + intro H. apply some_inj in H. now rewrite H.
Qed.

Lemma out_name_shape_witness :
  out_name book sheet1 3 2 document_a
    = Some (py "book__Sheet1__part02__9ca14fa5.md") /\
  (exists h,
     content_hash document_a = Some h /\ len h = 8 /\
     py "book__Sheet1__part02__9ca14fa5.md"
     = stem book ++ py "__" ++ sheet1
       ++ (if (1 <? 3)%nat then py "__part" ++ format_02d 2 else [])
       ++ py "__" ++ h ++ py ".md") /\
  2 <= len (format_02d 2) /\
  (forall chunk' name',
     out_name book sheet1 3 2 chunk' = Some name' ->
     (py "book__Sheet1__part02__9ca14fa5.md" = name'
      <-> content_hash document_a = content_hash chunk')).
Proof.
  assert (E : out_name book sheet1 3 2 document_a
              = Some (py "book__Sheet1__part02__9ca14fa5.md"))
    by (vm_compute; reflexivity).
  exact (conj E (out_name_shape book sheet1 3 2 document_a _ E)).
Defined.

(** *** The document of an empty sheet *)

Lemma write_chunks_keeps_files path sheet nchunks chunks :
  forall i dir dir',
    dir <> [] ->
    write_chunks path sheet nchunks i chunks dir = Written dir' -> dir' <> [].
Proof.
  induction chunks as [|c cs IH]; intros i dir dir' Hdir; simpl.
  - now intros [= <-].
  - destruct (out_name path sheet nchunks i c) as [name|]; [|discriminate].
    destruct (encode_utf8 c) as [data|]; [|discriminate].
    apply IH. unfold write_file. discriminate.
Qed.

Lemma write_chunks_writes path sheet nchunks chunks i dir dir' :
  chunks <> [] ->
  write_chunks path sheet nchunks i chunks dir = Written dir' -> dir' <> [].
Proof.
  destruct chunks as [|c cs]; [congruence|]. intros _. simpl.
  destruct (out_name path sheet nchunks i c) as [name|]; [|discriminate].
  destruct (encode_utf8 c) as [data|]; [|discriminate].
  apply write_chunks_keeps_files. unfold write_file. discriminate.
Qed.

Section EmptySheet.
Variable lower : pystr -> pystr.
Variable yaml_safe_dump : list (pystr * pystr) -> pystr.
Variable to_markdown : DataFrame -> pystr.

Lemma full_md_nonempty path sheet now df :
  full_md lower yaml_safe_dump to_markdown path sheet now df <> [].
Proof. unfold full_md, make_front_matter. discriminate. Qed.

Lemma chunks_of_full_md_nonempty path sheet now df :
  Chunker.chunk_text (full_md lower yaml_safe_dump to_markdown path sheet now df)
                     MAX_CHARS_PER_CHUNK <> [].
Proof.
  intro E.
  apply (full_md_nonempty path sheet now df).
  rewrite <- (ChunkerFacts.join_chunk_text _ MAX_CHARS_PER_CHUNK), E.
  reflexivity.
Qed.

(** C8. When the normalized frame of a sheet has no row, the document is the
    front matter followed by the title line and nothing else; it is cut
    into at least one chunk, and the writing of the sheet, when it ends
    without exception, leaves a file in the directory. *)
Theorem empty_sheet_document (path : Path) (sheet now : pystr) (df : DataFrame) :
  nrows (sanitize_df df) = 0%nat ->
  full_md lower yaml_safe_dump to_markdown path sheet now df =
    make_front_matter yaml_safe_dump (metadata lower path sheet now)
    ++ py "# " ++ stem path ++ py " - " ++ sheet ++ [LF; LF] /\
  Chunker.chunk_text (full_md lower yaml_safe_dump to_markdown path sheet now df)
                     MAX_CHARS_PER_CHUNK <> [] /\
  (forall dir dir',
     process_sheet lower yaml_safe_dump to_markdown path sheet now df dir
       = Written dir' -> dir' <> []).
Proof.
  intro Hrows. split; [|split].
  - unfold full_md, md_core, empty. rewrite Hrows. cbn [Nat.eqb orb negb].
    unfold title_line. now rewrite PyStrFacts.join_single.
  - apply chunks_of_full_md_nonempty.
  - intros dir dir'. unfold process_sheet.
    apply write_chunks_writes, chunks_of_full_md_nonempty.
Qed.

End EmptySheet.

Lemma empty_sheet_document_witness :
  nrows (sanitize_df header_only_frame) = 0%nat /\
  full_md ascii_lower plain_yaml no_table book sheet1 noon header_only_frame =
    make_front_matter plain_yaml (metadata ascii_lower book sheet1 noon)
    ++ py "# " ++ stem book ++ py " - " ++ sheet1 ++ [LF; LF] /\
  Chunker.chunk_text
    (full_md ascii_lower plain_yaml no_table book sheet1 noon header_only_frame)
    MAX_CHARS_PER_CHUNK <> [] /\
  (forall dir dir',
     process_sheet ascii_lower plain_yaml no_table book sheet1 noon
                   header_only_frame dir = Written dir' -> dir' <> []).
Proof.
  assert (H : nrows (sanitize_df header_only_frame) = 0%nat) by reflexivity.
  exact (conj H (empty_sheet_document ascii_lower plain_yaml no_table
                   book sheet1 noon header_only_frame H)).
Defined.

(** The empty sheet of [book.xlsx] written into an empty directory: one
    file, named after the workbook, the sheet and the digest. *)
Example empty_sheet_is_written :
  exists data,
    process_sheet ascii_lower plain_yaml no_table book sheet1 noon
                  header_only_frame []
    = Written [(py "book__Sheet1__00d01946.md", data)].
Proof. eexists. vm_compute. reflexivity. Qed.

(** *** Part numbers *)

Lemma unpy_py (s : string) : unpy (py s) = s.
Proof.
  unfold unpy, py. rewrite map_map.
  rewrite (map_ext _ (fun a => a)), map_id.
  - apply string_of_list_ascii_of_string.
  - intro a. rewrite N2Z.id. apply ascii_N_embedding.
Qed.

Lemma int_of_digits_zero (s : pystr) :
  int_of_digits (48 :: s) = int_of_digits s.
Proof.
  unfold int_of_digits.
  change (unpy (48 :: s)) with (String "0" (unpy s)).
  cbn [NilEmpty.uint_of_string].
  now destruct (NilEmpty.uint_of_string (unpy s)).
Qed.

Lemma int_of_digits_zeros (k : nat) (s : pystr) :
  int_of_digits (List.repeat 48 k ++ s) = int_of_digits s.
Proof.
  induction k as [|k IH]; simpl; [reflexivity|].
  now rewrite int_of_digits_zero.
Qed.

Lemma uint_of_string_of_uint (d : Decimal.uint) :
  exists d', NilEmpty.uint_of_string (NilZero.string_of_uint d) = Some d' /\
             N.of_uint d' = N.of_uint d.
Proof.
  destruct d; [exists (Decimal.D0 Decimal.Nil); split; reflexivity | ..];
    (eexists; split; [apply NilEmpty.usu | reflexivity]).
Qed.

Lemma int_of_digits_digits (i : Z) : 0 <= i -> int_of_digits (digits i) = Some i.
Proof.
  intro Hi. unfold int_of_digits, digits. rewrite unpy_py.
  destruct (uint_of_string_of_uint (N.to_uint (Z.to_N i))) as (d & -> & Ed).
  cbn [option_map]. rewrite Ed, Unsigned.of_to. now rewrite Z2N.id.
Qed.

(** Reading the part number back: [int] of the two-digit format of a
    number that is not negative is that number. *)
Lemma int_of_digits_format_02d (i : Z) :
  0 <= i -> int_of_digits (format_02d i) = Some i.
Proof.
  intro Hi. unfold format_02d, zero_pad.
  now rewrite int_of_digits_zeros, int_of_digits_digits.
Qed.

Lemma app_same_tail_length {A} (a c b d : list A) :
  a ++ b = c ++ d -> List.length b = List.length d -> a = c.
Proof.
  revert c. induction a as [|x a IH]; intros [|y c] E L; simpl in E.
  - reflexivity.
  - apply (f_equal (@List.length A)) in E. simpl in E.
    rewrite length_app in E. lia.
  - apply (f_equal (@List.length A)) in E. simpl in E.
    rewrite length_app in E. lia.
  - injection E as -> E. f_equal. now apply IH.
Qed.

Lemma content_hash_length_nat (chunk h : pystr) :
  content_hash chunk = Some h -> List.length h = 8%nat.
Proof.
  intro E. apply content_hash_length in E. unfold len in E. lia.
Qed.

Lemma out_name_separates_parts (path : Path) (sheet : pystr) (nchunks : nat)
    (i j : Z) (chunk1 chunk2 name1 name2 : pystr) :
  (1 < nchunks)%nat -> 0 <= i -> 0 <= j -> i <> j ->
  out_name path sheet nchunks i chunk1 = Some name1 ->
  out_name path sheet nchunks j chunk2 = Some name2 ->
  name1 <> name2.
Proof.
  intros Hn Hi Hj Hij E1 E2 Eq. unfold out_name, part_suffix in E1, E2.
  apply Nat.ltb_lt in Hn. rewrite Hn in E1, E2.
  destruct (content_hash chunk1) as [h1|] eqn:H1; [|discriminate E1].
  destruct (content_hash chunk2) as [h2|] eqn:H2; [|discriminate E2].
  cbn [option_map] in E1, E2. apply some_inj in E1, E2.
  rewrite <- E1, <- E2 in Eq.
  rewrite <- !app_assoc in Eq.
  do 4 apply app_inv_head in Eq.
  apply app_same_tail_length in Eq.
  - apply Hij.
    assert (S : Some i = Some j)
      by (rewrite <- (int_of_digits_format_02d i Hi),
                  <- (int_of_digits_format_02d j Hj); now rewrite Eq).
    now injection S.
  - rewrite !length_app.
    now rewrite (content_hash_length_nat _ _ H1), (content_hash_length_nat _ _ H2).
Qed.

(** X14. The parts of one document never share a file name: with more than one
    chunk, two different part numbers give two different names, whatever
    the chunks hold. *)
Theorem part_names_differ (path : Path) (sheet : pystr) (nchunks : nat)
    (i j : Z) (chunk1 chunk2 name1 name2 : pystr) :
  (1 < nchunks)%nat -> 0 <= i -> 0 <= j -> i <> j ->
  out_name path sheet nchunks i chunk1 = Some name1 ->
  out_name path sheet nchunks j chunk2 = Some name2 ->
  name1 <> name2.
Proof. apply out_name_separates_parts. Qed.

Lemma part_names_differ_witness :
  (1 < 3)%nat /\ 0 <= 1 /\ 0 <= 2 /\ 1 <> 2 /\
  out_name book sheet1 3 1 document_a
    = Some (py "book__Sheet1__part01__9ca14fa5.md") /\
  out_name book sheet1 3 2 document_a
    = Some (py "book__Sheet1__part02__9ca14fa5.md") /\
  py "book__Sheet1__part01__9ca14fa5.md"
    <> py "book__Sheet1__part02__9ca14fa5.md".
Proof.
  assert (H1 : (1 < 3)%nat) by (apply Nat.ltb_lt; reflexivity).
  assert (H2 : 0 <= 1) by discriminate.
  assert (H3 : 0 <= 2) by discriminate.
  assert (H4 : 1 <> 2) by discriminate.
  assert (E1 : out_name book sheet1 3 1 document_a
               = Some (py "book__Sheet1__part01__9ca14fa5.md"))
    by (vm_compute; reflexivity).
  assert (E2 : out_name book sheet1 3 2 document_a
               = Some (py "book__Sheet1__part02__9ca14fa5.md"))
    by (vm_compute; reflexivity).
  exact (conj H1 (conj H2 (conj H3 (conj H4 (conj E1 (conj E2
    (part_names_differ book sheet1 3 1 2 _ _ _ _ H1 H2 H3 H4 E1 E2))))))).
Defined.

(** *** When the writing fails *)

Lemma encode_char_some_iff (c : char) :
  (exists b, encode_char c = Some b) <-> encodable c.
Proof.
  unfold encode_char, encodable.
  destruct (Z.ltb_spec c 0); destruct (Z.ltb_spec 0x10FFFF c); cbn [orb];
    try (split; [intros [b E]; discriminate E | intros [Hr _]; lia]).
  destruct (Z.ltb_spec c 0x80); [split; [intros _; lia | intros _; eauto]|].
  destruct (Z.ltb_spec c 0x800); [split; [intros _; lia | intros _; eauto]|].
  destruct (Z.leb_spec 0xD800 c); destruct (Z.leb_spec c 0xDFFF); cbn [andb];
    try (split; [intros [b E]; discriminate E | intros [_ Hs]; lia]);
    destruct (Z.ltb_spec c 0x10000);
    (split; [intros _; lia | intros _; eauto]).
Qed.

Lemma encode_utf8_some_iff (s : pystr) :
  (exists b, encode_utf8 s = Some b) <-> Forall encodable s.
Proof.
  induction s as [|c s IH]; simpl.
  - split; [constructor | eauto].
  - split.
    + intros [b E].
      destruct (encode_char c) as [bc|] eqn:Ec; [|discriminate E].
      destruct (encode_utf8 s) as [bs|] eqn:Es; [|discriminate E].
      constructor; [apply encode_char_some_iff | apply IH]; eauto.
    + intro H. inversion H as [|? ? Hc Hs]; subst.
      apply encode_char_some_iff in Hc as [bc ->].
      apply IH in Hs as [bs ->]. eauto.
Qed.

Lemma Forall_join {P : char -> Prop} (l : list pystr) :
  Forall P (join l) <-> Forall (Forall P) l.
Proof.
  unfold join. induction l as [|x l IH]; simpl.
  - split; constructor.
  - rewrite Forall_app, IH. split.
    + intros [Hx Hl]. now constructor.
    + intro H. now inversion H.
Qed.

Lemma write_chunks_written_iff path sheet nchunks chunks :
  forall i dir,
    (exists dir', write_chunks path sheet nchunks i chunks dir = Written dir')
    <-> Forall (Forall encodable) chunks.
Proof.
  induction chunks as [|c cs IH]; intros i dir; simpl.
  - split; [constructor | eauto].
  - unfold out_name, content_hash.
    destruct (encode_utf8 c) as [data|] eqn:Ec; cbn [option_map].
    + rewrite IH. split.
      * intro H. constructor; [|exact H]. apply encode_utf8_some_iff. eauto.
      * intro H. now inversion H.
    + split.
      * intros [dir' E]. discriminate E.
      * intro H. inversion H as [|? ? Hc _]; subst.
        apply encode_utf8_some_iff in Hc as [b Eb]. congruence.
Qed.

Section Writing.
Variable lower : pystr -> pystr.
Variable yaml_safe_dump : list (pystr * pystr) -> pystr.
Variable to_markdown : DataFrame -> pystr.

Local Abbreviation document := (full_md lower yaml_safe_dump to_markdown).
Local Abbreviation process := (process_sheet lower yaml_safe_dump to_markdown).

(** X15. The writing of a sheet ends with [UnicodeEncodeError] exactly when its
    document holds a code point that UTF-8 does not encode (a lone
    surrogate, as in a file name that is not valid UTF-8); otherwise every
    chunk is written. *)
Theorem process_sheet_written_iff (path : Path) (sheet now : pystr)
    (df : DataFrame) (dir : directory) :
  (exists dir', process path sheet now df dir = Written dir')
  <-> Forall encodable (document path sheet now df).
Proof.
  unfold process_sheet. rewrite write_chunks_written_iff, <- Forall_join.
  now rewrite ChunkerFacts.join_chunk_text.
Qed.

End Writing.

(** *** What the directory holds afterwards *)

Lemma str_eqb_eq (s t : pystr) : str_eqb s t = true <-> s = t.
Proof.
  revert t. induction s as [|a s IH]; intros [|b t]; simpl;
    try (split; [discriminate | discriminate]); [split; reflexivity|].
  rewrite andb_true_iff, Z.eqb_eq, IH. split.
  - now intros [-> ->].
  - intros [= -> ->]. now split.
Qed.

Lemma write_file_new dir name data : In (name, data) (write_file dir name data).
Proof. now left. Qed.

Lemma write_file_keeps dir name data other content :
  other <> name -> In (other, content) dir ->
  In (other, content) (write_file dir name data).
Proof.
  intros Hne Hin. right. apply filter_In. split; [exact Hin|].
  cbn [fst]. destruct (str_eqb other name) eqn:E; [|reflexivity].
  apply str_eqb_eq in E. contradiction.
Qed.

(** A file stays in the directory while chunks are written under other
    names. *)
Lemma write_chunks_keeps_others path sheet nchunks other content chunks :
  forall i dir dir',
    write_chunks path sheet nchunks i chunks dir = Written dir' ->
    In (other, content) dir ->
    (forall k c, nth_error chunks k = Some c ->
       out_name path sheet nchunks (i + Z.of_nat k) c <> Some other) ->
    In (other, content) dir'.
Proof.
  induction chunks as [|c cs IH]; intros i dir dir' E Hin Hnames; simpl in E.
  - now injection E as <-.
  - destruct (out_name path sheet nchunks i c) as [name|] eqn:En;
      [|discriminate E].
    destruct (encode_utf8 c) as [data|]; [|discriminate E].
    apply (IH (i + 1) _ _ E).
    + apply write_file_keeps; [|exact Hin].
      intros ->. apply (Hnames 0%nat c eq_refl).
      now rewrite Z.add_0_r.
    + intros k c' Hk.
      replace (i + 1 + Z.of_nat k) with (i + Z.of_nat (Datatypes.S k)) by lia.
      now apply Hnames.
Qed.

Lemma write_chunks_holds_each path sheet nchunks chunks :
  forall i dir dir',
    write_chunks path sheet nchunks i chunks dir = Written dir' ->
    (1 < nchunks)%nat \/ (List.length chunks <= 1)%nat ->
    0 <= i ->
    forall k c, nth_error chunks k = Some c ->
      exists name data,
        out_name path sheet nchunks (i + Z.of_nat k) c = Some name /\
        encode_utf8 c = Some data /\ In (name, data) dir'.
Proof.
  induction chunks as [|c cs IH]; intros i dir dir' E Hn Hi k c' Hk.
  - now destruct k.
  - simpl in E.
    destruct (out_name path sheet nchunks i c) as [name|] eqn:En;
      [|discriminate E].
    destruct (encode_utf8 c) as [data|] eqn:Ec; [|discriminate E].
    destruct k as [|k].
    + injection Hk as <-. exists name, data.
      rewrite Z.add_0_r. repeat split; auto.
      apply (write_chunks_keeps_others _ _ _ _ _ _ _ _ _ E);
        [apply write_file_new|].
      intros k c' Hk Eq.
      destruct Hn as [Hn|Hn].
      * apply (out_name_separates_parts path sheet nchunks i (i + 1 + Z.of_nat k)
                 c c' name name); auto; lia.
      * simpl in Hn. destruct cs; [now destruct k | simpl in Hn; lia].
    + simpl in Hk.
      replace (i + Z.of_nat (Datatypes.S k)) with (i + 1 + Z.of_nat k) by lia.
      apply (IH (i + 1) _ _ E); [|lia|exact Hk].
      destruct Hn as [Hn|Hn]; [now left | right; simpl in Hn; lia].
Qed.

Section Directory.
Variable lower : pystr -> pystr.
Variable yaml_safe_dump : list (pystr * pystr) -> pystr.
Variable to_markdown : DataFrame -> pystr.

Local Abbreviation document := (full_md lower yaml_safe_dump to_markdown).
Local Abbreviation process := (process_sheet lower yaml_safe_dump to_markdown).

(** X16. When the writing of a sheet ends normally, the directory holds every
    chunk of its document: chunk number [k + 1] is the content, encoded in
    UTF-8, of the file that bears its name.  No chunk is lost to a later
    chunk of the same sheet. *)
Theorem process_sheet_holds_every_chunk (path : Path) (sheet now : pystr)
    (df : DataFrame) (dir dir' : directory) (k : nat) (chunk : pystr) :
  process path sheet now df dir = Written dir' ->
  nth_error (Chunker.chunk_text (document path sheet now df)
                                MAX_CHARS_PER_CHUNK) k = Some chunk ->
  exists name data,
    out_name path sheet
             (List.length (Chunker.chunk_text (document path sheet now df)
                                              MAX_CHARS_PER_CHUNK))
             (1 + Z.of_nat k) chunk = Some name /\
    encode_utf8 chunk = Some data /\
    In (name, data) dir'.
Proof.
  unfold process_sheet. intros E Hk.
  apply (write_chunks_holds_each _ _ _ _ 1 dir dir' E); [lia | lia | exact Hk].
Qed.

(** X17. The writing of a sheet leaves alone every file whose name is not the
    name of one of its chunks. *)
Theorem process_sheet_keeps_other_files (path : Path) (sheet now : pystr)
    (df : DataFrame) (dir dir' : directory) (other : pystr) (content : bytes) :
  process path sheet now df dir = Written dir' ->
  In (other, content) dir ->
  (forall k c,
     nth_error (Chunker.chunk_text (document path sheet now df)
                                   MAX_CHARS_PER_CHUNK) k = Some c ->
     out_name path sheet
              (List.length (Chunker.chunk_text (document path sheet now df)
                                               MAX_CHARS_PER_CHUNK))
              (1 + Z.of_nat k) c <> Some other) ->
  In (other, content) dir'.
Proof.
  unfold process_sheet. intros E Hin Hnames.
  exact (write_chunks_keeps_others _ _ _ _ _ _ 1 dir dir' E Hin Hnames).
Qed.

End Directory.

Lemma process_sheet_holds_every_chunk_witness :
  (exists data,
     process_sheet ascii_lower plain_yaml no_table book sheet1 noon
                   header_only_frame old_directory
     = Written ((py "book__Sheet1__00d01946.md", data) :: old_directory)) /\
  (exists name data,
     out_name book sheet1
       (List.length
          (Chunker.chunk_text
             (full_md ascii_lower plain_yaml no_table book sheet1 noon
                      header_only_frame) MAX_CHARS_PER_CHUNK))
       (1 + Z.of_nat 0)
       (full_md ascii_lower plain_yaml no_table book sheet1 noon
                header_only_frame) = Some name /\
     encode_utf8 (full_md ascii_lower plain_yaml no_table book sheet1 noon
                          header_only_frame) = Some data /\
     exists data0,
       In (name, data)
          ((py "book__Sheet1__00d01946.md", data0) :: old_directory)).
Proof.
  assert (E : exists data,
     process_sheet ascii_lower plain_yaml no_table book sheet1 noon
                   header_only_frame old_directory
     = Written ((py "book__Sheet1__00d01946.md", data) :: old_directory))
    by (eexists; vm_compute; reflexivity).
  split; [exact E|]. destruct E as [data0 E].
  destruct (process_sheet_holds_every_chunk ascii_lower plain_yaml no_table
              book sheet1 noon header_only_frame old_directory _ 0 _ E eq_refl)
    as (name & data & Hn & Hd & Hin).
  exists name, data. repeat split; auto. now exists data0.
Defined.

Lemma process_sheet_keeps_other_files_witness :
  exists data,
    process_sheet ascii_lower plain_yaml no_table book sheet1 noon
                  header_only_frame old_directory
    = Written ((py "book__Sheet1__00d01946.md", data) :: old_directory) /\
    In (py "old.md", [111; 108; 100]) old_directory /\
    In (py "old.md", [111; 108; 100])
       ((py "book__Sheet1__00d01946.md", data) :: old_directory).
Proof.
  assert (E : exists data,
     process_sheet ascii_lower plain_yaml no_table book sheet1 noon
                   header_only_frame old_directory
     = Written ((py "book__Sheet1__00d01946.md", data) :: old_directory))
    by (eexists; vm_compute; reflexivity).
  destruct E as [data E]. exists data.
  assert (Hin : In (py "old.md", [111; 108; 100]) old_directory) by (now left).
  repeat split; auto.
  apply (process_sheet_keeps_other_files ascii_lower plain_yaml no_table
           book sheet1 noon header_only_frame old_directory _ _ _ E Hin).
  intros k c Hk. destruct k as [|[|k]]; vm_compute in Hk; try discriminate Hk.
  injection Hk as <-. vm_compute. discriminate.
Defined.

(** *** The command line *)

Section MainLoop.
Variable lower : pystr -> pystr.
Variable yaml_safe_dump : list (pystr * pystr) -> pystr.
Variable to_markdown : DataFrame -> pystr.

Local Abbreviation loop := (main_loop lower yaml_safe_dump to_markdown).
Local Abbreviation wanted :=
  (fun f : Path * list (pystr * pystr * DataFrame) => supported lower (fst f)).

(** X18. Files whose extension is not supported are skipped without a trace:
    the run is the run on the supported files alone. *)
Theorem main_skips_unsupported
    (files : list (Path * list (pystr * pystr * DataFrame)))
    (dir : directory) (count : Z) :
  loop files dir count = loop (List.filter wanted files) dir count.
Proof.
  revert dir count. induction files as [|[p sheets] rest IH]; intros dir count;
    [reflexivity|].
  cbn [List.filter fst main_loop]. destruct (supported lower p) eqn:E.
  - cbn [main_loop]. rewrite E.
    destruct (process_excel lower yaml_safe_dump to_markdown p sheets dir);
      [apply IH | reflexivity].
  - apply IH.
Qed.

(** X19. When the run ends normally, the count it prints is the number of files
    with a supported extension. *)
Theorem main_counts_supported
    (files : list (Path * list (pystr * pystr * DataFrame)))
    (dir dir' : directory) (count : Z) :
  main lower yaml_safe_dump to_markdown files dir = (Written dir', count) ->
  count = Z.of_nat (List.length (List.filter wanted files)).
Proof.
  unfold main.
  enough (G : forall start d,
             loop files d start = (Written dir', count) ->
             count = start + Z.of_nat (List.length (List.filter wanted files)))
    by (intro E; now rewrite (G 0 dir E)).
  induction files as [|[p sheets] rest IH]; intros start d E.
  - cbn in E. injection E as _ <-. cbn. lia.
  - cbn [List.filter fst main_loop] in *. destruct (supported lower p).
    + destruct (process_excel lower yaml_safe_dump to_markdown p sheets d);
        [|discriminate E].
      pose proof (IH _ _ E) as H. cbn [List.length]. lia.
    + exact (IH _ _ E).
Qed.

End MainLoop.

Lemma main_counts_supported_witness :
  exists dir',
    main ascii_lower plain_yaml no_table listing [] = (Written dir', 2) /\
    2 = Z.of_nat (List.length
          (List.filter (fun f => supported ascii_lower (fst f)) listing)).
Proof.
  assert (E : exists dir',
            main ascii_lower plain_yaml no_table listing [] = (Written dir', 2))
    by (eexists; vm_compute; reflexivity).
  destruct E as [dir' E]. exists dir'. split; [exact E|].
  exact (main_counts_supported ascii_lower plain_yaml no_table listing [] dir' 2 E).
Defined.

End PipelineFacts.
